(** * arrow-buoys: the ingest parser, the atomic writer and the stream source

    A shallow embedding of the two Go programs of the repository:
    - [go-ingest] (fetch, [parseNdbcStdMet], [writeParquet], [runOnce]);
    - [go-source] ([readParquet], [rowsToRecord], [streamHandler]).

    Go values are embedded as follows.
    - [string] is a byte string: Rocq's [string], one [ascii] per byte;
      [[]byte] is [list byte].
    - [int] and [int64] are [Z]; the narrowing conversion [int32(v)] is
      written out as [int32_of].
    - [float64] is [spec_float] at precision 53 and maximal exponent 1024.
    - A nullable pointer [*T] is [option T].
    - [map[string]int] is [gmap string nat].
    - [(T, error)] results are [outcome T]; [error] alone is [option error].

    The Go standard library functions the programs call ([strings],
    [strconv], [bufio], [time]) are embedded from their documented
    behaviour.  The [strings] functions are embedded on ASCII: a byte above
    127 is an ordinary character, neither white space nor a letter. *)

From Stdlib Require Import ZArith List Bool Ascii String Strings.Byte Lia.
From Stdlib Require Import Floats.SpecFloat.
From stdpp Require Import base option list gmap strings.

Local Open Scope Z_scope.

(** ** Errors and results *)

Inductive error : Type :=
| EOF                              (* io.EOF *)
| ErrBufferFull                    (* bufio.ErrBufferFull *)
| ErrNoProgress                    (* io.ErrNoProgress *)
| ErrSyntax                        (* strconv.ErrSyntax *)
| ErrRange                         (* strconv.ErrRange *)
| ErrNotExist                      (* fs.ErrNotExist *)
| ErrHTTP (status : Z)             (* fmt.Errorf("fetch %s: HTTP %d") *)
| ErrWrapped (e : error)           (* fmt.Errorf("fetch %s: %w") *)
| ErrOther (msg : string).         (* any other failure of the environment *)

(** [Diverged] is the model's answer when a loop ran out of fuel; the
    theorems below show that the programs never produce it. *)
Inductive outcome (A : Type) : Type :=
| Ok (a : A)
| Err (e : error)
| Diverged.
Arguments Ok {A} a.
Arguments Err {A} e.
Arguments Diverged {A}.

Definition is_Ok {A} (o : outcome A) : bool :=
  match o with Ok _ => true | _ => false end.

(** ** Package strings (ASCII) *)

Module strings.

Definition byte_of (c : ascii) : Z := Z.of_N (N_of_ascii c).

(** unicode.IsSpace on ASCII: tab, newline, vertical tab, form feed,
    carriage return and space. *)
Definition isSpace (c : ascii) : bool :=
  let n := byte_of c in ((9 <=? n) && (n <=? 13)) || (n =? 32).

Definition upperByte (c : ascii) : ascii :=
  let n := byte_of c in
  if (97 <=? n) && (n <=? 122) then ascii_of_N (Z.to_N (n - 32)) else c.

Fixpoint ToUpper (s : string) : string :=
  match s with
  | EmptyString => EmptyString
  | String c s' => String (upperByte c) (ToUpper s')
  end.

Definition HasPrefix (s p : string) : bool := String.prefix p s.

Definition TrimPrefix (s p : string) : string :=
  if HasPrefix s p
  then String.substring (String.length p) (String.length s - String.length p) s
  else s.

Fixpoint trimLeft (s : string) : string :=
  match s with
  | EmptyString => EmptyString
  | String c s' => if isSpace c then trimLeft s' else s
  end.

Fixpoint trimRight (s : string) : string :=
  match s with
  | EmptyString => EmptyString
  | String c s' =>
      match trimRight s' with
      | EmptyString => if isSpace c then EmptyString else String c EmptyString
      | t => String c t
      end
  end.

Definition TrimSpace (s : string) : string := trimRight (trimLeft s).

(** [Fields] splits around runs of white space; [cur] is the field being
    read, and no field is empty. *)
Fixpoint fieldsFrom (cur : string) (s : string) : list string :=
  match s with
  | EmptyString =>
      match cur with EmptyString => [] | _ => [cur] end
  | String c s' =>
      if isSpace c
      then match cur with
           | EmptyString => fieldsFrom EmptyString s'
           | _ => cur :: fieldsFrom EmptyString s'
           end
      else fieldsFrom (String.append cur (String c EmptyString)) s'
  end.

Definition Fields (s : string) : list string := fieldsFrom EmptyString s.

End strings.

(** ** Package strconv: integers *)

Module strconv.

Definition maxUint64 : Z := 2 ^ 64 - 1.

Definition digit10 (c : ascii) : option Z :=
  let n := strings.byte_of c in
  if (48 <=? n) && (n <=? 57) then Some (n - 48) else None.

(** The loop of [ParseUint(s, 10, 64)]: a byte that is no decimal digit is
    a syntax error, a value above [maxUint64] a range error (and the value
    returned is then [maxUint64]). *)
Fixpoint parseUintLoop (s : string) (n : Z) : Z * option error :=
  match s with
  | EmptyString => (n, None)
  | String c s' =>
      match digit10 c with
      | None => (0, Some ErrSyntax)
      | Some d =>
          let cutoff := maxUint64 / 10 + 1 in
          if cutoff <=? n then (maxUint64, Some ErrRange)
          else
            let n10 := n * 10 in
            let n1 := (n10 + d) mod 2 ^ 64 in
            if (n1 <? n10) || (maxUint64 <? n1)
            then (maxUint64, Some ErrRange)
            else parseUintLoop s' n1
      end
  end.

Definition ParseUint10 (s : string) : Z * option error :=
  match s with
  | EmptyString => (0, Some ErrSyntax)
  | _ => parseUintLoop s 0
  end.

(** [ParseInt(s, 10, 64)]. *)
Definition ParseInt (s : string) : Z * option error :=
  match s with
  | EmptyString => (0, Some ErrSyntax)
  | String c s' =>
      let plus := Ascii.eqb c "+"%char in
      let neg := Ascii.eqb c "-"%char in
      let digits := if plus || neg then s' else s in
      match ParseUint10 digits with
      | (_, Some ErrSyntax) => (0, Some ErrSyntax)
      | (un, _) =>
          let cutoff := 2 ^ 63 in
          if negb neg && (cutoff <=? un) then (cutoff - 1, Some ErrRange)
          else if neg && (cutoff <? un) then (- cutoff, Some ErrRange)
          else (if neg then - un else un, None)
      end
  end.

(** [Atoi(s)] on a 64-bit platform is [ParseInt(s, 10, 0)] with a fast
    path for short inputs that returns the same value and the same kind
    of error. *)
Definition Atoi (s : string) : Z * option error := ParseInt s.

(** *** Floating point

    [ParseFloat(s, 64)] accepts, after an optional sign, the special
    values [inf], [infinity] and (unsigned) [nan] in any letter case, a
    decimal number with an optional fraction and an optional decimal
    exponent, or a hexadecimal number with a mandatory binary exponent;
    underscores may separate digits.  The result is the nearest [float64],
    ties to even; a value too large is a range error. *)

Definition float64 : Type := spec_float.
Definition prec : Z := 53.
Definition emax : Z := 1024.

(** The [float64] of an integer constant, as in the comparison [v == 99]. *)
Definition float_of_Z (z : Z) : float64 := binary_normalize prec emax z 0 false.

(** [lower(c)] is [c | ('x' - 'X')]. *)
Definition lower (c : ascii) : Z := Z.lor (strings.byte_of c) 32.

Definition isByte (c : ascii) (n : Z) : bool := strings.byte_of c =? n.

Fixpoint commonPrefixLenIgnoreCase (s prefix : string) : nat :=
  match s, prefix with
  | String c s', String p prefix' =>
      let n := strings.byte_of c in
      let n' := if (65 <=? n) && (n <=? 90) then n + 32 else n in
      if n' =? strings.byte_of p
      then S (commonPrefixLenIgnoreCase s' prefix')
      else O
  | _, _ => O
  end.

(** [special]: the value and the number of bytes read. *)
Definition special (s : string) : option (float64 * nat) :=
  let inf (neg : bool) (nsign : nat) (t : string) :=
    let n := commonPrefixLenIgnoreCase t "infinity" in
    let n := if (3 <? n)%nat && (n <? 8)%nat then 3%nat else n in
    if (n =? 3)%nat || (n =? 8)%nat
    then Some (S754_infinity neg, (nsign + n)%nat) else None in
  match s with
  | EmptyString => None
  | String c s' =>
      if isByte c 43 then inf false 1%nat s'
      else if isByte c 45 then inf true 1%nat s'
      else if isByte c 105 || isByte c 73 then inf false 0%nat s
      else if isByte c 110 || isByte c 78 then
        if (commonPrefixLenIgnoreCase s "nan" =? 3)%nat
        then Some (S754_nan, 3%nat) else None
      else None
  end.

(** The state of the digit loop of [readFloat].  [ds_mant] holds every
    significant digit (Go keeps 19 of them and a sticky flag, and rounds
    as if it had them all); [ds_nd] counts them, [ds_dp] is the position
    of the point. *)
Record digitState : Type := {
  ds_mant : Z;
  ds_nd : Z;
  ds_dp : Z;
  ds_sawdot : bool;
  ds_sawdigits : bool;
  ds_underscores : bool
}.

Fixpoint digitLoop (hex : bool) (s : string) (st : digitState)
  : digitState * string :=
  match s with
  | EmptyString => (st, s)
  | String c s' =>
      let n := strings.byte_of c in
      if n =? 95 then
        digitLoop hex s'
          {| ds_mant := ds_mant st; ds_nd := ds_nd st; ds_dp := ds_dp st;
             ds_sawdot := ds_sawdot st; ds_sawdigits := ds_sawdigits st;
             ds_underscores := true |}
      else if n =? 46 then
        if ds_sawdot st then (st, s)
        else
          digitLoop hex s'
            {| ds_mant := ds_mant st; ds_nd := ds_nd st; ds_dp := ds_nd st;
               ds_sawdot := true; ds_sawdigits := ds_sawdigits st;
               ds_underscores := ds_underscores st |}
      else if (48 <=? n) && (n <=? 57) then
        if (n =? 48) && (ds_nd st =? 0) then
          digitLoop hex s'
            {| ds_mant := ds_mant st; ds_nd := ds_nd st; ds_dp := ds_dp st - 1;
               ds_sawdot := ds_sawdot st; ds_sawdigits := true;
               ds_underscores := ds_underscores st |}
        else
          digitLoop hex s'
            {| ds_mant := ds_mant st * (if hex then 16 else 10) + (n - 48);
               ds_nd := ds_nd st + 1; ds_dp := ds_dp st;
               ds_sawdot := ds_sawdot st; ds_sawdigits := true;
               ds_underscores := ds_underscores st |}
      else if hex && (97 <=? lower c) && (lower c <=? 102) then
        digitLoop hex s'
          {| ds_mant := ds_mant st * 16 + (lower c - 97 + 10);
             ds_nd := ds_nd st + 1; ds_dp := ds_dp st;
             ds_sawdot := ds_sawdot st; ds_sawdigits := true;
             ds_underscores := ds_underscores st |}
      else (st, s)
  end.

(** The digits of the exponent; the value stops growing at 10000. *)
Fixpoint expLoop (s : string) (e : Z) (us : bool) : Z * bool * string :=
  match s with
  | EmptyString => (e, us, s)
  | String c s' =>
      let n := strings.byte_of c in
      if n =? 95 then expLoop s' e true
      else if (48 <=? n) && (n <=? 57)
      then expLoop s' (if e <? 10000 then e * 10 + (n - 48) else e) us
      else (e, us, s)
  end.

Inductive sawKind : Type := SawBegin | SawDigit | SawUnderscore | SawOther.

Fixpoint underscoreLoop (hex : bool) (s : string) (saw : sawKind) : bool :=
  match s with
  | EmptyString => match saw with SawUnderscore => false | _ => true end
  | String c s' =>
      let n := strings.byte_of c in
      if ((48 <=? n) && (n <=? 57))
         || (hex && (97 <=? lower c) && (lower c <=? 102))
      then underscoreLoop hex s' SawDigit
      else if n =? 95 then
        match saw with
        | SawDigit => underscoreLoop hex s' SawUnderscore
        | _ => false
        end
      else
        match saw with
        | SawUnderscore => false
        | _ => underscoreLoop hex s' SawOther
        end
  end.

Definition underscoreOK (s : string) : bool :=
  let s :=
    match s with
    | String c s' => if isByte c 45 || isByte c 43 then s' else s
    | _ => s
    end in
  match s with
  | String c0 (String c1 s') =>
      if isByte c0 48 && ((lower c1 =? 98) || (lower c1 =? 111) || (lower c1 =? 120))
      then underscoreLoop (lower c1 =? 120) s' SawDigit
      else underscoreLoop false s SawBegin
  | _ => underscoreLoop false s SawBegin
  end.

(** What [readFloat] finds in a token it accepts up to its last byte:
    the sign, the mantissa and the exponent, in base 10 or (hexadecimal
    numbers) in base 2. *)
Record number : Type := {
  num_neg : bool;
  num_hex : bool;
  num_mant : Z;
  num_exp : Z
}.

Definition readFloat (s : string) : option number :=
  match s with
  | EmptyString => None
  | String c s' =>
      let neg := isByte c 45 in
      let t := if isByte c 43 || neg then s' else s in
      let '(hex, t) :=
        match t with
        | String c0 (String c1 ((String _ _) as t')) =>
            if isByte c0 48 && (lower c1 =? 120) then (true, t') else (false, t)
        | _ => (false, t)
        end in
      let '(st, rest) :=
        digitLoop hex t
          {| ds_mant := 0; ds_nd := 0; ds_dp := 0; ds_sawdot := false;
             ds_sawdigits := false; ds_underscores := false |} in
      if negb (ds_sawdigits st) then None
      else
        let dp := if ds_sawdot st then ds_dp st else ds_nd st in
        let dp := if hex then dp * 4 else dp in
        let nd := if hex then ds_nd st * 4 else ds_nd st in
        let finish (dp : Z) (us : bool) (rest : string) :=
          match rest with
          | EmptyString =>
              if us && negb (underscoreOK s) then None
              else Some {| num_neg := neg; num_hex := hex;
                           num_mant := ds_mant st;
                           num_exp := if ds_mant st =? 0 then 0 else dp - nd |}
          | _ => None
          end in
        match rest with
        | String ce rest' =>
            if lower ce =? (if hex then 112 else 101) then
              match rest' with
              | EmptyString => None
              | String cs rest'' =>
                  let esign := if isByte cs 45 then (-1) else 1 in
                  let ds := if isByte cs 43 || isByte cs 45 then rest'' else rest' in
                  match ds with
                  | EmptyString => None
                  | String cd _ =>
                      if (strings.byte_of cd <? 48) || (57 <? strings.byte_of cd)
                      then None
                      else
                        let '(e, us, rest3) := expLoop ds 0 (ds_underscores st) in
                        finish (dp + e * esign) us rest3
                  end
              end
            else if hex then None
            else finish dp (ds_underscores st) rest
        | EmptyString =>
            if hex then None else finish dp (ds_underscores st) rest
        end
  end.

(** The nearest [float64] to [m * 10 ^ e] or [m * 2 ^ e], ties to even. *)
Definition roundNumber (x : number) : float64 :=
  match num_mant x with
  | Zpos m =>
      if num_hex x then binary_round prec emax (num_neg x) m (num_exp x)
      else if 0 <=? num_exp x
      then binary_round prec emax (num_neg x)
             (Z.to_pos (Zpos m * 10 ^ num_exp x)) 0
      else
        let '(q, e, l) :=
          SFdiv_core_binary prec emax (Zpos m) 0 (10 ^ (- num_exp x)) 0 in
        binary_round_aux prec emax (num_neg x) q e l
  | _ => S754_zero (num_neg x)
  end.

Definition ParseFloat (s : string) : float64 * option error :=
  match special s with
  | Some (v, n) =>
      if (n =? String.length s)%nat then (v, None)
      else (S754_zero false, Some ErrSyntax)
  | None =>
      match readFloat s with
      | None => (S754_zero false, Some ErrSyntax)
      | Some x =>
          let v := roundNumber x in
          match v with
          | S754_infinity _ => (v, Some ErrRange)
          | _ => (v, None)
          end
      end
  end.

End strconv.

(** [int32(v)] for an [int64] [v]: the low 32 bits, read as two's complement. *)
Definition int32_of (v : Z) : Z := (v + 2 ^ 31) mod 2 ^ 32 - 2 ^ 31.


(** ** Package time *)

Module time.

(** [norm(hi, lo, base)]: carry the overflow of [lo] into [hi]. *)
Definition norm (hi lo base : Z) : Z * Z := (hi + lo / base, lo mod base).

Definition isLeap (year : Z) : bool :=
  (year mod 4 =? 0) && (negb (year mod 100 =? 0) || (year mod 400 =? 0)).

(** Days of a common year before the first of month [m] (0 is January). *)
Definition daysBefore (m : Z) : Z :=
  nth (Z.to_nat m) [0; 31; 59; 90; 120; 151; 181; 212; 243; 273; 304; 334] 0.

(** Days from 1970-01-01 to the first of January of [year], in the
    proleptic Gregorian calendar. *)
Definition daysSinceEpoch (year : Z) : Z :=
  let leaps (y : Z) := y / 4 - y / 100 + y / 400 in
  365 * (year - 1970) + leaps (year - 1) - leaps 1969.

(** A [Time] is an instant, held as its count of seconds since
    1970-01-01T00:00:00Z. *)
Definition Time : Type := Z.

Definition Unix (t : Time) : Z := t.

(** [Date(year, month, day, hour, min, 0, 0, UTC)]: every field may be out
    of its range and is normalised, the month into the year and the clock
    fields into the day.  (Go computes in 64 bits; the model is exact as
    long as that does not wrap.) *)
Definition Date (year month day hour min : Z) : Time :=
  let '(year, m) := norm year (month - 1) 12 in
  let '(hour, min) := norm hour min 60 in
  let '(day, hour) := norm day hour 24 in
  let d := daysSinceEpoch year + daysBefore m
           + (if isLeap year && (2 <=? m) then 1 else 0)
           + (day - 1) in
  d * 86400 + hour * 3600 + min * 60.

End time.

(** ** Package bufio, reading from a bytes.Reader *)

Module bufio.

Definition defaultBufSize : nat := 4096.
Arguments defaultBufSize : simpl never.

(** [buf] is the unread part [b.buf[b.r:b.w]] of the buffer, [rd] what
    the underlying [bytes.Reader] has not handed out yet, [err] the
    pending read error. *)
Record Reader : Type := {
  buf : list byte;
  rd : list byte;
  err : option error
}.

Definition NewReader (body : list byte) : Reader :=
  {| buf := []; rd := body; err := None |}.

(** [bytes.Reader.Read(p)] with [len(p) = n]. *)
Definition bytesRead (src : list byte) (n : nat)
  : list byte * option error * list byte :=
  match src with
  | [] => ([], Some EOF, [])
  | _ => (take n src, None, drop n src)
  end.

(** [fill]: slide the unread bytes to the front and read into the free
    space; a reader that keeps handing out nothing and reporting nothing is
    given up on with [ErrNoProgress].  [ReadSlice] calls it only when the
    buffer has room. *)
Definition fill (b : Reader) : Reader :=
  match bytesRead (rd b) (defaultBufSize - length (buf b)) with
  | (data, Some e, rest) => {| buf := buf b ++ data; rd := rest; err := Some e |}
  | ([], None, rest) => {| buf := buf b; rd := rest; err := Some ErrNoProgress |}
  | (data, None, rest) => {| buf := buf b ++ data; rd := rest; err := err b |}
  end.

Fixpoint indexByte (l : list byte) (c : byte) : option nat :=
  match l with
  | [] => None
  | x :: l' => if Byte.eqb x c then Some O else S <$> indexByte l' c
  end.

(** [ReadSlice('\n')]; [None] when the loop ran more than [fuel] times. *)
Fixpoint readSliceLoop (fuel : nat) (b : Reader)
  : option (list byte * option error * Reader) :=
  match indexByte (buf b) x0a with
  | Some i =>
      Some (take (S i) (buf b), None,
            {| buf := drop (S i) (buf b); rd := rd b; err := err b |})
  | None =>
      match err b with
      | Some e =>
          Some (buf b, Some e, {| buf := []; rd := rd b; err := None |})
      | None =>
          if (defaultBufSize <=? length (buf b))%nat
          then Some (buf b, Some ErrBufferFull,
                     {| buf := []; rd := rd b; err := None |})
          else
            match fuel with
            | O => None
            | S fuel' => readSliceLoop fuel' (fill b)
            end
      end
  end.

(** Two refills are enough over a byte slice: the first fills the buffer
    or takes all that is left, the second then meets the end of the input. *)
Definition ReadSlice (b : Reader) : option (list byte * option error * Reader) :=
  readSliceLoop 2 b.

Definition lastIs (l : list byte) (c : byte) : bool :=
  match last l with Some x => Byte.eqb x c | None => false end.

(** [ReadLine]: the line without its end-of-line bytes, [isPrefix], the
    error and the reader afterwards. *)
Definition ReadLine (b : Reader)
  : option (list byte * bool * option error * Reader) :=
  match ReadSlice b with
  | None => None
  | Some (line, e, b') =>
      match e with
      | Some ErrBufferFull =>
          (* Handle the case where "\r\n" straddles the buffer. *)
          if lastIs line x0d
          then Some (removelast line, true, None,
                     {| buf := x0d :: buf b'; rd := rd b'; err := err b' |})
          else Some (line, true, None, b')
      | _ =>
          match line with
          | [] => Some ([], false, e, b')
          | _ =>
              let line :=
                if lastIs line x0a
                then if lastIs (removelast line) x0d
                     then removelast (removelast line) else removelast line
                else line in
              Some (line, false, None, b')
          end
      end
  end.

End bufio.

(** [errors.Is(err, io.EOF)] *)
Fixpoint isEOF (e : error) : bool :=
  match e with
  | EOF => true
  | ErrWrapped e' => isEOF e'
  | _ => false
  end.

(** * go-ingest *)

(** MetRow is the schema for each observation row written to Parquet. *)
Record MetRow : Type := {
  StationID : string;
  Time : Z;
  WDIRDeg : option Z;
  WSPDmS : option strconv.float64;
  GUSTmS : option strconv.float64;
  PREShPa : option strconv.float64;
  ATMPC : option strconv.float64;
  WTMPC : option strconv.float64;
  DEWPC : option strconv.float64
}.

Definition ndbcBase : string := "https://www.ndbc.noaa.gov/data/realtime2".

Definition isSentinelInt (v : Z) : bool := (v =? 99) || (v =? 999) || (v =? 9999).

Definition isSentinelFloat (v : strconv.float64) : bool :=
  SFeqb v (strconv.float_of_Z 99) || SFeqb v (strconv.float_of_Z 999)
  || SFeqb v (strconv.float_of_Z 9999).

(** atoiP parses an integer, returning nil for sentinel values (99, 999, 9999). *)
Definition atoiP (s : string) : option Z :=
  match s with
  | EmptyString => None
  | _ =>
      match strconv.ParseInt s with
      | (_, Some _) => None
      | (v, None) => if isSentinelInt v then None else Some (int32_of v)
      end
  end.

(** atofP parses a float, returning nil for sentinel values. *)
Definition atofP (s : string) : option strconv.float64 :=
  match s with
  | EmptyString => None
  | _ =>
      match strconv.ParseFloat s with
      | (_, Some _) => None
      | (v, None) => if isSentinelFloat v then None else Some v
      end
  end.

Definition get (cols : list string) (idx : gmap string nat) (key : string) : string :=
  match idx !! strings.ToUpper key with
  | Some i => match cols !! i with Some c => c | None => EmptyString end
  | None => EmptyString
  end.

(** The body of the loop over the lines in [parseNdbcStdMet], for one
    line: [header] is [None] while it is nil, [data] collects the rows of
    at least five columns. *)
Definition scanLine (acc : option (list string) * list (list string))
    (line : string) : option (list string) * list (list string) :=
  let '(header, data) := acc in
  if strings.HasPrefix line "#" then
    let trim := strings.TrimSpace (strings.TrimPrefix line "#") in
    (* First comment line starting with YY or YYYY is the header. *)
    if strings.HasPrefix trim "YY" || strings.HasPrefix trim "YYYY"
    then (Some (strings.Fields trim), data)
    else (header, data)
  else if String.eqb (strings.TrimSpace line) "" then (header, data)
  else
    let cols := strings.Fields line in
    if (5 <=? length cols)%nat then (header, data ++ [cols]) else (header, data).

(** The loop itself; one unit of [fuel] is spent per call of [ReadLine]. *)
Fixpoint scanLines (fuel : nat) (r : bufio.Reader)
    (acc : option (list string) * list (list string))
  : outcome (option (list string) * list (list string)) :=
  match fuel with
  | O => Diverged
  | S fuel' =>
      match bufio.ReadLine r with
      | None => Diverged
      | Some (_, _, Some e, _) => if isEOF e then Ok acc else Err e
      | Some (lineBytes, _, None, r') =>
          scanLines fuel' r' (scanLine acc (string_of_list_byte lineBytes))
      end
  end.

Definition scan (body : list byte)
  : outcome (option (list string) * list (list string)) :=
  scanLines (S (length body)) (bufio.NewReader body) (None, []).

(** The lines [ReadLine] hands to the loop, in order. *)
Fixpoint readLines (fuel : nat) (r : bufio.Reader) : outcome (list string) :=
  match fuel with
  | O => Diverged
  | S fuel' =>
      match bufio.ReadLine r with
      | None => Diverged
      | Some (_, _, Some e, _) => if isEOF e then Ok [] else Err e
      | Some (lineBytes, _, None, r') =>
          match readLines fuel' r' with
          | Ok ls => Ok (string_of_list_byte lineBytes :: ls)
          | o => o
          end
      end
  end.

Definition documentLines (body : list byte) : outcome (list string) :=
  readLines (S (length body)) (bufio.NewReader body).

(** The column names a line gives when it is a comment line whose content
    begins with YY. *)
Definition headerLine (line : string) : option (list string) :=
  fst (scanLine (None, []) line).

(** The columns of a line when it is a candidate data row. *)
Definition dataRow (line : string) : option (list string) :=
  head (snd (scanLine (None, []) line)).

(** Fallback header if not found in file. *)
Definition fallbackHeader : list string :=
  [ "YYYY"; "MM"; "DD"; "hh"; "mm";
    "WDIR"; "WSPD"; "GST"; "WVHT"; "DPD";
    "APD"; "MWD"; "PRES"; "PTDY"; "ATMP";
    "WTMP"; "DEWP"; "VIS"; "TIDE" ]%string.

(** [for i, h := range header { idx[strings.ToUpper(h)] = i }], from
    index [i] on. *)
Fixpoint indexHeader (i : nat) (header : list string) (idx : gmap string nat)
  : gmap string nat :=
  match header with
  | [] => idx
  | h :: header' => indexHeader (S i) header' (<[strings.ToUpper h := i]> idx)
  end.

Definition capRows (maxRows : Z) (data : list (list string)) : list (list string) :=
  if (0 <? maxRows) && (maxRows <? Z.of_nat (length data))
  then take (Z.to_nat maxRows) data
  else data.

(** The body of the loop over the retained rows. *)
Definition rowOf (station : string) (idx : gmap string nat) (cols : list string)
  : MetRow :=
  let yy := get cols idx "YYYY" in
  let yy := if String.eqb yy "" then get cols idx "YY" else yy in
  let mm := get cols idx "MM" in
  let dd := get cols idx "DD" in
  let hh := get cols idx "HH" in
  let hh := if String.eqb hh "" then get cols idx "hh" else hh in
  let mn := get cols idx "mm" in
  let year := fst (strconv.Atoi yy) in
  let year := if (String.length yy =? 2)%nat then year + 2000 else year in
  let month := fst (strconv.Atoi mm) in
  let day := fst (strconv.Atoi dd) in
  let hour := fst (strconv.Atoi hh) in
  let minute := fst (strconv.Atoi mn) in
  {| StationID := strings.ToUpper station;
     Time := time.Unix (time.Date year month day hour minute);
     WDIRDeg := atoiP (get cols idx "WDIR");
     WSPDmS := atofP (get cols idx "WSPD");
     GUSTmS := atofP (get cols idx "GST");
     PREShPa := atofP (get cols idx "PRES");
     ATMPC := atofP (get cols idx "ATMP");
     WTMPC := atofP (get cols idx "WTMP");
     DEWPC := atofP (get cols idx "DEWP") |}.

(** parseNdbcStdMet parses NDBC standard meteorological text data.
    It dynamically finds the header line and maps columns by name. *)
Definition parseNdbcStdMet (station : string) (body : list byte) (maxRows : Z)
  : outcome (list MetRow) :=
  match scan body with
  | Diverged => Diverged
  | Err e => Err e
  | Ok (header, data) =>
      let header := match header with Some h => h | None => fallbackHeader end in
      let idx := indexHeader 0 header ∅ in
      Ok (rowOf station idx <$> capRows maxRows data)
  end.

(** What the transport hands back for a URL: the request could not be
    built, the call did not complete, or a response with its status, the
    bytes of its body and the error of [io.ReadAll], if any. *)
Inductive httpResult : Type :=
| RequestError (e : error)
| TransportError (e : error)
| Response (status : Z) (body : list byte) (readErr : option error).

Definition stationURL (station : string) : string :=
  String.append ndbcBase
    (String.append "/" (String.append (strings.ToUpper station) ".txt")).

Definition fetchStation (net : string -> httpResult) (station : string)
  : outcome (list MetRow) :=
  match net (stationURL station) with
  | RequestError e => Err e
  | TransportError e => Err (ErrWrapped e)
  | Response status b readErr =>
      if negb (status =? 200) then Err (ErrHTTP status)
      else
        match readErr with
        | Some e => Err e
        | None => parseNdbcStdMet station b 48
        end
  end.


(** ** The columnar file codec and the file system

    The parquet library is outside the repository: a [Codec] gives the type
    of file contents, the contents the generic writer produces for a row
    list, and what the generic reader finds in a file: its rows, and the
    error that ends them ([EOF] for a well-formed file).  [readChunk] is
    the reader's choice of how many rows one [Read] hands out and
    [eofWithRows] whether it reports [EOF] together with the last rows or
    on the call after.  Rows are values: what one [Read] handed out is not
    changed by a later one. *)
Class Codec : Type := {
  File : Type;
  emptyFile : File;
  encode : list MetRow -> File;
  decode : File -> list MetRow * error;
  readChunk : nat -> nat;
  eofWithRows : bool
}.

(** The calls of [writeParquet] that can fail. *)
Inductive writeStep : Type :=
| StepCreate          (* os.Create(tmp) *)
| StepWrite           (* w.Write(rows) *)
| StepWriterClose     (* w.Close() *)
| StepFileClose       (* f.Close() *)
| StepRename.         (* os.Rename(tmp, path) *)

(** The steps that write to the temporary file. *)
Definition whileWriting (st : writeStep) : bool :=
  match st with
  | StepWrite | StepWriterClose | StepFileClose => true
  | StepCreate | StepRename => false
  end.

Definition faults : Type := writeStep -> option error.

Definition noFaults : faults := fun _ => None.

Definition failAt (st : writeStep) (e : error) : faults :=
  fun st' =>
    match st, st' with
    | StepCreate, StepCreate | StepWrite, StepWrite
    | StepWriterClose, StepWriterClose | StepFileClose, StepFileClose
    | StepRename, StepRename => Some e
    | _, _ => None
    end.

(** The file system maps a path to the contents of the file there.
    [os.Remove] is taken to succeed (the program ignores its result); a
    rename that fails is a fault of [StepRename], so [os_Rename] itself is
    only called on a file that exists. *)
Definition os_Create `{Codec} (name : string) (fs : gmap string File)
  : gmap string File := <[name := emptyFile]> fs.

Definition os_Remove `{Codec} (name : string) (fs : gmap string File)
  : gmap string File := delete name fs.

Definition os_Rename `{Codec} (old new : string) (fs : gmap string File)
  : gmap string File :=
  match fs !! old with
  | Some f => <[new := f]> (delete old fs)
  | None => fs
  end.

(** writeParquet atomically writes rows to path via a .tmp intermediate file. *)
Definition writeParquet `{Codec} (flt : faults) (path : string)
    (rows : list MetRow) (fs : gmap string File)
  : option error * gmap string File :=
  let tmp := path +:+ ".tmp" in
  match flt StepCreate with
  | Some e => (Some e, fs)
  | None =>
      let fs := os_Create tmp fs in
      match flt StepWrite with
      | Some e => (Some e, os_Remove tmp fs)
      | None =>
          match flt StepWriterClose with
          | Some e => (Some e, os_Remove tmp fs)
          | None =>
              let fs := <[tmp := encode rows]> fs in
              match flt StepFileClose with
              | Some e => (Some e, os_Remove tmp fs)
              | None =>
                  match flt StepRename with
                  | Some e => (Some e, fs)
                  | None => (None, os_Rename tmp path fs)
                  end
              end
          end
      end
  end.

(** What the ingest process sees of the world. *)
Record World : Type := {
  http_get : string -> httpResult;
  mkdirAll : string -> option error;
  filepath_Join : string -> string -> string;
  write_faults : string -> faults
}.

Inductive logLine : Type :=
| LogMkdirError (dataDir : string) (e : error)   (* ERROR mkdir %s: %v *)
| LogWarn (station : string) (e : error)         (* WARN  %s: %v *)
| LogNoRows (station : string)                   (* INFO  %s: no rows parsed *)
| LogWriteError (station : string) (e : error)   (* ERROR %s: write parquet: %v *)
| LogWrote (out : string) (n : nat).             (* WROTE %s (%d rows) *)

(** The loop of [runOnce] over the stations; [None] when a fetch does not
    return. *)
Fixpoint runStations `{Codec} (w : World) (dataDir : string)
    (stations : list string) (fs : gmap string File) (log : list logLine)
  : option (gmap string File * list logLine) :=
  match stations with
  | [] => Some (fs, log)
  | s :: rest =>
      let s := strings.TrimSpace s in
      if String.eqb s "" then runStations w dataDir rest fs log
      else
        match fetchStation (http_get w) s with
        | Diverged => None
        | Err e => runStations w dataDir rest fs (log ++ [LogWarn s e])
        | Ok rows =>
            if (length rows =? 0)%nat
            then runStations w dataDir rest fs (log ++ [LogNoRows s])
            else
              let out := filepath_Join w dataDir
                           (strings.ToUpper s +:+ "_latest.parquet") in
              match writeParquet (write_faults w out) out rows fs with
              | (Some e, fs') =>
                  runStations w dataDir rest fs' (log ++ [LogWriteError s e])
              | (None, fs') =>
                  runStations w dataDir rest fs' (log ++ [LogWrote out (length rows)])
              end
        end
  end.

Definition runOnce `{Codec} (w : World) (stations : list string)
    (dataDir : string) (fs : gmap string File)
  : option (gmap string File * list logLine) :=
  match mkdirAll w dataDir with
  | Some e => Some (fs, [LogMkdirError dataDir e])
  | None => runStations w dataDir stations fs []
  end.

(** * go-source *)

(** [GenericReader.Read(buf)] with [len(buf) = n] on a reader that still
    has the rows [rem] before its final error [fin]: the rows handed out,
    the error and the rows left. *)
Definition genericRead `{Codec} (rem : list MetRow) (fin : error) (n : nat)
  : list MetRow * option error * list MetRow :=
  match rem with
  | [] => ([], Some fin, [])
  | _ =>
      let k := Nat.min (Nat.min n (length rem)) (S (readChunk (length rem))) in
      let rem' := drop k rem in
      (take k rem,
       match rem' with [] => if eofWithRows then Some fin else None | _ => None end,
       rem')
  end.

(** The read loop of [readParquet]; [None] when it ran more than [fuel]
    times. *)
Fixpoint readAll `{Codec} (fuel : nat) (rem : list MetRow) (fin : error)
    (all : list MetRow) : option (list MetRow * option error) :=
  match fuel with
  | O => None
  | S fuel' =>
      let '(got, err, rem') := genericRead rem fin 1024 in
      let all := if (0 <? length got)%nat then all ++ got else all in
      match err with
      | Some EOF => Some (all, None)
      | Some e => Some (all, Some e)
      | None => readAll fuel' rem' fin all
      end
  end.

(** readParquet reads all MetRows from a Parquet file using the generic reader. *)
Definition readParquet `{Codec} (fs : gmap string File) (path : string)
  : option (list MetRow * option error) :=
  match fs !! path with
  | None => Some ([], Some ErrNotExist)
  | Some f =>
      let '(rows, fin) := decode f in
      readAll (S (length rows)) rows fin []
  end.

Inductive arrowType : Type :=
| ArrowString | ArrowTimestampSecondUTC | ArrowInt32 | ArrowFloat64.

Record arrowField : Type := {
  fieldName : string;
  fieldType : arrowType;
  fieldNullable : bool
}.

Definition buildSchema : list arrowField :=
  [ {| fieldName := "station_id"; fieldType := ArrowString; fieldNullable := false |};
    {| fieldName := "time"; fieldType := ArrowTimestampSecondUTC; fieldNullable := false |};
    {| fieldName := "wdir_deg"; fieldType := ArrowInt32; fieldNullable := true |};
    {| fieldName := "wspd_ms"; fieldType := ArrowFloat64; fieldNullable := true |};
    {| fieldName := "gust_ms"; fieldType := ArrowFloat64; fieldNullable := true |};
    {| fieldName := "pres_hpa"; fieldType := ArrowFloat64; fieldNullable := true |};
    {| fieldName := "atmp_c"; fieldType := ArrowFloat64; fieldNullable := true |};
    {| fieldName := "wtmp_c"; fieldType := ArrowFloat64; fieldNullable := true |};
    {| fieldName := "dewp_c"; fieldType := ArrowFloat64; fieldNullable := true |} ].

(** An array builder holds the slots appended so far, [None] for a null. *)
Definition appendOptF64 (b : list (option strconv.float64))
    (p : option strconv.float64) : list (option strconv.float64) :=
  match p with
  | None => b ++ [None]
  | Some v => b ++ [Some v]
  end.

(** One record batch: the nine column arrays and the row count. *)
Record arrowRecord : Type := {
  col_station_id : list string;
  col_time : list Z;
  col_wdir_deg : list (option Z);
  col_wspd_ms : list (option strconv.float64);
  col_gust_ms : list (option strconv.float64);
  col_pres_hpa : list (option strconv.float64);
  col_atmp_c : list (option strconv.float64);
  col_wtmp_c : list (option strconv.float64);
  col_dewp_c : list (option strconv.float64);
  numRows : nat
}.

(** The loop of [rowsToRecord] that appends each row to the nine builders. *)
Fixpoint appendRows (rows : list MetRow) (rec : arrowRecord) : arrowRecord :=
  match rows with
  | [] => rec
  | r :: rows' =>
      appendRows rows'
        {| col_station_id := col_station_id rec ++ [StationID r];
           col_time := col_time rec ++ [Time r];
           col_wdir_deg :=
             match WDIRDeg r with
             | None => col_wdir_deg rec ++ [None]
             | Some v => col_wdir_deg rec ++ [Some v]
             end;
           col_wspd_ms := appendOptF64 (col_wspd_ms rec) (WSPDmS r);
           col_gust_ms := appendOptF64 (col_gust_ms rec) (GUSTmS r);
           col_pres_hpa := appendOptF64 (col_pres_hpa rec) (PREShPa r);
           col_atmp_c := appendOptF64 (col_atmp_c rec) (ATMPC r);
           col_wtmp_c := appendOptF64 (col_wtmp_c rec) (WTMPC r);
           col_dewp_c := appendOptF64 (col_dewp_c rec) (DEWPC r);
           numRows := numRows rec |}
  end.

Definition rowsToRecord (rows : list MetRow) : arrowRecord :=
  let rec :=
    appendRows rows
      {| col_station_id := []; col_time := []; col_wdir_deg := [];
         col_wspd_ms := []; col_gust_ms := []; col_pres_hpa := [];
         col_atmp_c := []; col_wtmp_c := []; col_dewp_c := [];
         numRows := O |} in
  {| col_station_id := col_station_id rec; col_time := col_time rec;
     col_wdir_deg := col_wdir_deg rec; col_wspd_ms := col_wspd_ms rec;
     col_gust_ms := col_gust_ms rec; col_pres_hpa := col_pres_hpa rec;
     col_atmp_c := col_atmp_c rec; col_wtmp_c := col_wtmp_c rec;
     col_dewp_c := col_dewp_c rec; numRows := length rows |}.

(** What the stream process sees of the world: the environment variables,
    the result of [filepath.Glob] for a pattern, and which calls of the
    Arrow IPC writer fail. *)
Record SourceWorld `{Codec} : Type := {
  os_Getenv : string -> string;
  src_Join : string -> string -> string;
  filepath_Glob : string -> gmap string File -> list string;
  ipc_NewWriter : option error;
  ipc_Write : string -> option error
}.

Definition getenv `{Codec} (w : SourceWorld) (key def : string) : string :=
  let v := os_Getenv w key in
  if String.eqb v "" then def else v.

Inductive sourceLog : Type :=
| LogNoFiles (dataDir : string)                 (* WARN no parquet files in %s *)
| LogReadError (p : string) (e : error)         (* WARN readParquet %s: %v *)
| LogIpcError (p : string) (e : error)          (* ERROR ipc write %s: %v *)
| LogSent (p : string) (n : nat).               (* SENT  %s (%d rows) *)

(** The body of a response: the text of [http.Error], or an Arrow IPC
    stream, the schema declaration followed by the record batches. *)
Inductive responseBody : Type :=
| ErrorText (msg : error)
| ArrowStream (schema : list arrowField) (batches : list arrowRecord).

Record httpResponse : Type := {
  statusCode : Z;
  contentType : string;
  body : responseBody
}.

(** The body of the loop of [streamHandler] for one match: the batch
    written to the stream, if any, and the lines logged; [None] when the
    read does not return. *)
Definition streamFile `{Codec} (w : SourceWorld) (fs : gmap string File)
    (p : string) : option (option arrowRecord * list sourceLog) :=
  match readParquet fs p with
  | None => None
  | Some (_, Some e) => Some (None, [LogReadError p e])
  | Some (rows, None) =>
      if (length rows =? 0)%nat then Some (None, [])
      else
        let rec := rowsToRecord rows in
        match ipc_Write w p with
        | Some e => Some (None, [LogIpcError p e; LogSent p (length rows)])
        | None => Some (Some rec, [LogSent p (length rows)])
        end
  end.

(** The loop over the matches: the batches written and the log. *)
Fixpoint streamFiles `{Codec} (w : SourceWorld) (fs : gmap string File)
    (matches : list string) (batches : list arrowRecord) (log : list sourceLog)
  : option (list arrowRecord * list sourceLog) :=
  match matches with
  | [] => Some (batches, log)
  | p :: rest =>
      match streamFile w fs p with
      | None => None
      | Some (Some rec, l) => streamFiles w fs rest (batches ++ [rec]) (log ++ l)
      | Some (None, l) => streamFiles w fs rest batches (log ++ l)
      end
  end.

Definition streamHandler `{Codec} (w : SourceWorld) (fs : gmap string File)
  : option (httpResponse * list sourceLog) :=
  let dataDir := getenv w "DATA_DIR" "/data" in
  let schema := buildSchema in
  match ipc_NewWriter w with
  | Some e =>
      Some ({| statusCode := 500; contentType := "text/plain; charset=utf-8";
               body := ErrorText e |}, [])
  | None =>
      let matches := filepath_Glob w (src_Join w dataDir "*_latest.parquet") fs in
      let respond (batches : list arrowRecord) :=
        {| statusCode := 200;
           contentType := "application/vnd.apache.arrow.stream";
           body := ArrowStream schema batches |} in
      if (length matches =? 0)%nat
      then Some (respond [], [LogNoFiles dataDir])
      else
        match streamFiles w fs matches [] [] with
        | None => None
        | Some (batches, log) => Some (respond batches, log)
        end
  end.


(** The header a document's lines leave in [header] when the loop ends,
    and the rows they leave in [data]. *)
Definition documentHeader (lines : list string) : option (list string) :=
  last (omap headerLine lines).

Definition candidateRows (lines : list string) : list (list string) :=
  omap dataRow lines.

(** The header of the first qualifying comment line, as the comment in the
    loop has it. *)
Definition firstHeader (lines : list string) : option (list string) :=
  head (omap headerLine lines).

(** * Example data *)

Definition nl : string := String (ascii_of_nat 10) EmptyString.

(** Scenario 1 of the specification, the elided columns written out. *)
Definition scenario1 : list byte :=
  list_byte_of_string
    ("#YYYY MM DD hh mm WDIR WSPD GST WVHT DPD APD MWD PRES ATMP WTMP DEWP" +:+ nl +:+
     "2024 03 15 12 00 180 5.1 6.2 0.5 6 4.8 170 1015.2 99 21.3 99" +:+ nl).

(** The same scenario with the three dots kept as a column of their own. *)
Definition scenario1Dots : list byte :=
  list_byte_of_string
    ("#YYYY MM DD hh mm WDIR WSPD GST ... ATMP WTMP DEWP" +:+ nl +:+
     "2024 03 15 12 00 180 5.1 6.2 ... 99 21.3 99" +:+ nl).

(** A document with two qualifying header lines that disagree. *)
Definition twoHeaders : list byte :=
  list_byte_of_string
    ("#YYYY MM DD hh mm WDIR WSPD" +:+ nl +:+
     "#YYYY MM DD hh mm WSPD WDIR" +:+ nl +:+
     "2024 03 15 12 00 180 5.1" +:+ nl).

(** Three data rows under the fallback header. *)
Definition threeRows : list byte :=
  list_byte_of_string
    ("2024 03 15 12 00 180 5.1" +:+ nl +:+
     "2024 03 15 11 00 170 4.0" +:+ nl +:+
     "2024 03 15 10 00 160 3.5" +:+ nl).

(** A codec whose files are the row lists themselves. *)
Definition listCodec : Codec :=
  {| File := list MetRow;
     emptyFile := [];
     encode := fun rows => rows;
     decode := fun f => (f, EOF);
     readChunk := fun _ => 1023%nat;
     eofWithRows := false |}.

Definition sampleRow : MetRow :=
  {| StationID := "SANF1"; Time := 1710504000; WDIRDeg := Some 180;
     WSPDmS := Some (fst (strconv.ParseFloat "5.1")); GUSTmS := None;
     PREShPa := None; ATMPC := None; WTMPC := None; DEWPC := None |}.

(** A world in which every station answers 200 with an empty document. *)
Definition quietWorld : World :=
  {| http_get := fun _ => Response 200 [] None;
     mkdirAll := fun _ => None;
     filepath_Join := fun dir name => dir +:+ "/" +:+ name;
     write_faults := fun _ => noFaults |}.

(** [filepath.Glob] for a pattern with one star, over the paths of the
    file system: the paths that begin with what stands before the star,
    end with what stands after it and have no separator in between, in
    lexical order. *)
Definition globMatch (pattern p : string) : bool :=
  match String.index 0 "*" pattern with
  | None => String.eqb pattern p
  | Some i =>
      let pre := String.substring 0 i pattern in
      let suf := String.substring (S i) (String.length pattern - S i) pattern in
      let n := (String.length p - String.length pre - String.length suf)%nat in
      (String.length pre + String.length suf <=? String.length p)%nat
      && String.prefix pre p
      && String.eqb (String.substring (String.length pre + n) (String.length suf) p) suf
      && match String.index 0 "/" (String.substring (String.length pre) n p) with
         | None => true
         | Some _ => false
         end
  end.

Fixpoint insertSorted (p : string) (l : list string) : list string :=
  match l with
  | [] => [p]
  | q :: l' => if String.leb p q then p :: l else q :: insertSorted p l'
  end.

Definition globList (pattern : string) (fs : gmap string (list MetRow))
  : list string :=
  foldr insertSorted []
    (filter (fun p => globMatch pattern p = true) (fst <$> map_to_list fs)).

(** A stream process over [listCodec] with the default data directory. *)
Definition sourceWorld : @SourceWorld listCodec :=
  @Build_SourceWorld listCodec
    (fun _ => EmptyString)
    (fun dir name => dir +:+ "/" +:+ name)
    globList
    None
    (fun _ => None).

(** A data directory with one file of one row and one file of no row. *)
Definition sampleFiles : gmap string (list MetRow) :=
  <["/data/SANF1_latest.parquet" := [sampleRow] ]>
    (<["/data/EMPTY_latest.parquet" := [] ]>
       (<["/data/notes.txt" := [sampleRow; sampleRow] ]> ∅)).

(** * The main loop of go-ingest *)

(** [getenv] of go-ingest, over the process environment. *)
Definition ingestGetenv (environ : string -> string) (key def : string)
  : string :=
  let v := environ key in
  if String.eqb v "" then def else v.

(** [strings.Split(s, sep)] for a separator of one byte; [cur] is the piece
    being read.  The empty string splits into one empty piece. *)
Fixpoint splitFrom (sep : ascii) (cur : string) (s : string) : list string :=
  match s with
  | EmptyString => [cur]
  | String c s' =>
      if Ascii.eqb c sep then cur :: splitFrom sep EmptyString s'
      else splitFrom sep (String.append cur (String c EmptyString)) s'
  end.

Definition strings_Split (s : string) (sep : ascii) : list string :=
  splitFrom sep EmptyString s.

Inductive mainLogLine : Type :=
| LogStarting (stationsCSV : string) (mins : Z) (dataDir : string)
                                   (* Starting go-ingest | ... *)
| LogCycle (lines : list logLine)  (* what runOnce logged *)
| LogOneShot                       (* One-shot mode complete, exiting. *)
| LogSleeping (mins : Z).          (* Sleeping %d minutes until next fetch. *)

(** The [for] loop of [main]: [worlds n] is the world the [n]-th cycle
    meets.  [None] when the loop has not ended after [fuel] cycles. *)
Fixpoint mainLoop `{Codec} (fuel : nat) (worlds : nat -> World) (cycle : nat)
    (stations : list string) (dataDir : string) (mins : Z)
    (fs : gmap string File) (log : list mainLogLine)
  : option (gmap string File * list mainLogLine) :=
  match fuel with
  | O => None
  | S fuel' =>
      match runOnce (worlds cycle) stations dataDir fs with
      | None => None
      | Some (fs', lines) =>
          if mins <=? 0
          then Some (fs', log ++ [LogCycle lines; LogOneShot])
          else mainLoop fuel' worlds (S cycle) stations dataDir mins fs'
                 (log ++ [LogCycle lines; LogSleeping mins])
      end
  end.

Definition ingestMain `{Codec} (fuel : nat) (environ : string -> string)
    (worlds : nat -> World) (fs : gmap string File)
  : option (gmap string File * list mainLogLine) :=
  let stationsCSV :=
    ingestGetenv environ "STATIONS" "SANF1,SMKF1,LONF1,VAKF1,KYWF1" in
  let stations := strings_Split stationsCSV ","%char in
  let dataDir := ingestGetenv environ "DATA_DIR" "/data" in
  let minsStr := ingestGetenv environ "REFRESH_MINUTES" "60" in
  let mins := fst (strconv.Atoi minsStr) in
  mainLoop fuel worlds O stations dataDir mins fs
    [LogStarting stationsCSV mins dataDir].

(** A world in which every station answers 200 with the three-row document. *)
Definition busyWorld : World :=
  {| http_get := fun _ => Response 200 threeRows None;
     mkdirAll := fun _ => None;
     filepath_Join := fun dir name => dir +:+ "/" +:+ name;
     write_faults := fun _ => noFaults |}.

(** A world in which every station answers 500. *)
Definition downWorld : World :=
  {| http_get := fun _ => Response 500 [] None;
     mkdirAll := fun _ => None;
     filepath_Join := fun dir name => dir +:+ "/" +:+ name;
     write_faults := fun _ => noFaults |}.

(** * Facts about the buffered reader *)

(** The bytes a reader still holds. *)
Definition unread (r : bufio.Reader) : nat :=
  (length (bufio.buf r) + length (bufio.rd r))%nat.

(** Between two calls the pending error of a reader over a byte slice is
    nil or [EOF]. *)
Definition quiet (r : bufio.Reader) : Prop :=
  bufio.err r = None \/ bufio.err r = Some EOF.

Lemma indexByte_lt (l : list byte) (c : byte) (i : nat) :
  bufio.indexByte l c = Some i -> (i < length l)%nat.
Proof.
  revert i. induction l as [|x l IH]; intros i; simpl; [discriminate|].
  destruct (Byte.eqb x c).
  - intros [= <-]. lia.
  - destruct (bufio.indexByte l c) as [j|]; simpl; [|discriminate].
    intros [= <-]. specialize (IH j eq_refl). lia.
Qed.

Lemma fill_quiet (r : bufio.Reader) :
  bufio.err r = None ->
  (length (bufio.buf r) < bufio.defaultBufSize)%nat ->
  quiet (bufio.fill r) /\ unread (bufio.fill r) = unread r.
Proof.
  intros Herr Hroom. unfold bufio.fill, bufio.bytesRead, unread, quiet.
  destruct (bufio.rd r) as [|b rest] eqn:Hrd; simpl.
  - rewrite app_nil_r. split; [by right | lia].
  - destruct (bufio.defaultBufSize - length (bufio.buf r))%nat as [|k] eqn:Hk;
      [lia|].
    simpl. split; [by left|].
    rewrite length_app. simpl. rewrite length_take, length_drop. lia.
Qed.

Lemma fill_drained (r : bufio.Reader) :
  bufio.err r = None ->
  (length (bufio.buf r) < bufio.defaultBufSize)%nat ->
  bufio.err (bufio.fill r) = None ->
  (length (bufio.buf (bufio.fill r)) < bufio.defaultBufSize)%nat ->
  bufio.rd (bufio.fill r) = [].
Proof.
  intros Herr Hroom. unfold bufio.fill, bufio.bytesRead.
  destruct (bufio.rd r) as [|b rest] eqn:Hrd; simpl; [discriminate|].
  destruct (bufio.defaultBufSize - length (bufio.buf r))%nat as [|k] eqn:Hk;
    [lia|].
  simpl. intros _. rewrite length_app. simpl. rewrite length_take.
  intros Hlen. apply drop_ge. lia.
Qed.

Lemma readSliceLoop_eq (n : nat) (r : bufio.Reader) :
  bufio.readSliceLoop n r =
  match bufio.indexByte (bufio.buf r) x0a with
  | Some i =>
      Some (take (S i) (bufio.buf r), None,
            {| bufio.buf := drop (S i) (bufio.buf r);
               bufio.rd := bufio.rd r; bufio.err := bufio.err r |})
  | None =>
      match bufio.err r with
      | Some e =>
          Some (bufio.buf r, Some e,
                {| bufio.buf := []; bufio.rd := bufio.rd r; bufio.err := None |})
      | None =>
          if (bufio.defaultBufSize <=? length (bufio.buf r))%nat
          then Some (bufio.buf r, Some ErrBufferFull,
                     {| bufio.buf := []; bufio.rd := bufio.rd r;
                        bufio.err := None |})
          else match n with
               | O => None
               | S n' => bufio.readSliceLoop n' (bufio.fill r)
               end
      end
  end.
Proof. by destruct n. Qed.

Lemma readSliceLoop_pending (n : nat) (r : bufio.Reader) (e : error) :
  bufio.err r = Some e -> is_Some (bufio.readSliceLoop n r).
Proof.
  intros Herr. rewrite readSliceLoop_eq, Herr.
  destruct (bufio.indexByte _ _); eauto.
Qed.

Lemma readSliceLoop_drained (n : nat) (r : bufio.Reader) :
  bufio.err r = None -> bufio.rd r = [] ->
  is_Some (bufio.readSliceLoop (S n) r).
Proof.
  intros Herr Hrd. rewrite readSliceLoop_eq, Herr.
  destruct (bufio.indexByte _ _); [eauto|].
  destruct (bufio.defaultBufSize <=? length (bufio.buf r))%nat; [eauto|].
  apply readSliceLoop_pending with (e := EOF).
  unfold bufio.fill, bufio.bytesRead. by rewrite Hrd.
Qed.

Lemma ReadSlice_returns (r : bufio.Reader) :
  quiet r -> is_Some (bufio.ReadSlice r).
Proof.
  intros [Herr|Herr]; [|by eapply readSliceLoop_pending].
  unfold bufio.ReadSlice. rewrite readSliceLoop_eq, Herr.
  destruct (bufio.indexByte _ _); [eauto|].
  destruct (bufio.defaultBufSize <=? length (bufio.buf r))%nat eqn:Hfull;
    [eauto|].
  apply Nat.leb_gt in Hfull.
  destruct (bufio.err (bufio.fill r)) as [e|] eqn:Herr';
    [by eapply readSliceLoop_pending|].
  destruct (Nat.ltb_spec (length (bufio.buf (bufio.fill r))) bufio.defaultBufSize)
    as [Hlt|Hge].
  - apply readSliceLoop_drained; [done|]. by apply fill_drained.
  - rewrite readSliceLoop_eq, Herr'.
    destruct (bufio.indexByte _ _); [eauto|].
    apply Nat.leb_le in Hge. rewrite Hge. eauto.
Qed.

Lemma readSliceLoop_sound (n : nat) (r : bufio.Reader)
    (line : list byte) (e : option error) (r' : bufio.Reader) :
  quiet r ->
  bufio.readSliceLoop n r = Some (line, e, r') ->
  quiet r' /\ unread r = (length line + unread r')%nat
  /\ (e = None \/ e = Some EOF \/ e = Some ErrBufferFull)
  /\ (e = None -> line <> [])
  /\ (e = Some ErrBufferFull -> (bufio.defaultBufSize <= length line)%nat).
Proof.
  revert r. induction n as [|n IH]; intros r Hq; rewrite readSliceLoop_eq.
  all: destruct (bufio.indexByte _ _) as [i|] eqn:Hidx.
  all: try (apply indexByte_lt in Hidx; intros [= <- <- <-];
            unfold unread; simpl; rewrite length_take, length_drop;
            split; [exact Hq|]; split; [lia|]; split; [by left|];
            split; [|discriminate];
            intros _ Hnil; apply (f_equal length) in Hnil;
            rewrite length_take in Hnil; change (length []) with O in Hnil;
            lia).
  all: destruct (bufio.err r) as [e0|] eqn:Herr.
  all: try (destruct Hq as [Hq|Hq]; [congruence|]; rewrite Herr in Hq;
            injection Hq as ->; intros [= <- <- <-]; unfold unread; simpl;
            split; [by left|]; split; [lia|]; split; [by right; left|];
            split; discriminate).
  all: destruct (bufio.defaultBufSize <=? length (bufio.buf r))%nat eqn:Hfull.
  all: try (apply Nat.leb_le in Hfull; intros [= <- <- <-]; unfold unread;
            simpl; split; [by left|]; split; [lia|];
            split; [by right; right|]; split; [discriminate|done]).
  - discriminate.
  - apply Nat.leb_gt in Hfull. intros Hloop.
    destruct (fill_quiet r Herr Hfull) as [Hq' Hun].
    rewrite <- Hun. by apply IH.
Qed.

Lemma ReadLine_step (r : bufio.Reader) :
  quiet r ->
  exists line isPrefix e r',
    bufio.ReadLine r = Some (line, isPrefix, e, r') /\ quiet r'
    /\ ((e = None /\ (unread r' < unread r)%nat) \/ e = Some EOF).
Proof.
  intros Hq. destruct (ReadSlice_returns r Hq) as [[[line e] r'] Hrs].
  unfold bufio.ReadLine. rewrite Hrs.
  destruct (readSliceLoop_sound _ _ _ _ _ Hq Hrs)
    as (Hq' & Hun & He & Hnone & Hfull).
  assert (H4096 : bufio.defaultBufSize = 4096%nat) by reflexivity.
  destruct He as [-> | [-> | ->]].
  - destruct line as [|b line]; [by destruct Hnone|].
    eexists _, _, _, _. split; [reflexivity|]. split; [done|]. left.
    split; [done|]. simpl in Hun. lia.
  - destruct line as [|b line].
    + eexists _, _, _, _. split; [reflexivity|]. split; [done|]. by right.
    + eexists _, _, _, _. split; [reflexivity|]. split; [done|]. left.
      split; [done|]. simpl in Hun. lia.
  - specialize (Hfull eq_refl). destruct (bufio.lastIs line x0d).
    + eexists _, _, _, _. split; [reflexivity|]. split; [done|]. left.
      split; [done|]. unfold unread in *. simpl. lia.
    + eexists _, _, _, _. split; [reflexivity|]. split; [done|]. left.
      split; [done|]. lia.
Qed.

Lemma readLines_returns (fuel : nat) (r : bufio.Reader) :
  quiet r -> (unread r < fuel)%nat -> exists ls, readLines fuel r = Ok ls.
Proof.
  revert r. induction fuel as [|fuel IH]; intros r Hq Hlt; [lia|].
  destruct (ReadLine_step r Hq) as (line & p & e & r' & Hrl & Hq' & He).
  simpl. rewrite Hrl. destruct He as [[-> Hdec] | ->].
  - destruct (IH r' Hq') as [ls ->]; [lia|]. eauto.
  - simpl. eauto.
Qed.

Lemma scanLines_readLines (fuel : nat) (r : bufio.Reader)
    (acc : option (list string) * list (list string)) :
  scanLines fuel r acc =
  match readLines fuel r with
  | Ok ls => Ok (fold_left scanLine ls acc)
  | Err e => Err e
  | Diverged => Diverged
  end.
Proof.
  revert r acc. induction fuel as [|fuel IH]; intros r acc; simpl; [done|].
  destruct (bufio.ReadLine r) as [[[[line p] [e|]] r']|]; [| |done].
  - by destruct (isEOF e).
  - rewrite IH. by destruct (readLines fuel r').
Qed.

Lemma documentLines_returns (body : list byte) :
  exists ls, documentLines body = Ok ls.
Proof.
  apply readLines_returns; [by left|]. unfold unread. simpl. lia.
Qed.

(** * The parser *)

Lemma scanLine_split (h : option (list string)) (d : list (list string))
    (line : string) :
  scanLine (h, d) line =
  (match headerLine line with Some x => Some x | None => h end,
   d ++ option_list (dataRow line)).
Proof.
  unfold headerLine, dataRow, scanLine.
  destruct (strings.HasPrefix line "#");
    [destruct (_ || _)
    |destruct (String.eqb _ _);
       [|destruct (5 <=? length (strings.Fields line))%nat]];
    simpl; by rewrite ?app_nil_r.
Qed.

Lemma last_omap_cons {A B} (f : A -> option B) (x : A) (l : list A) (h : option B) :
  match last (omap f (x :: l)) with Some y => Some y | None => h end =
  match last (omap f l) with
  | Some y => Some y
  | None => match f x with Some y => Some y | None => h end
  end.
Proof.
  destruct (f x) as [y|] eqn:Hfx; simpl; rewrite Hfx;
    change (list_omap A B f l) with (omap f l); [|done].
  destruct (omap f l) as [|z zs]; [done|].
  rewrite last_cons. by destruct (last (z :: zs)).
Qed.

Lemma fold_scanLine (lines : list string) (h : option (list string))
    (d : list (list string)) :
  fold_left scanLine lines (h, d) =
  (match documentHeader lines with Some x => Some x | None => h end,
   d ++ candidateRows lines).
Proof.
  revert h d. induction lines as [|l lines IH]; intros h d.
  - cbn. by rewrite app_nil_r.
  - cbn [fold_left]. rewrite scanLine_split, IH.
    unfold documentHeader, candidateRows. rewrite last_omap_cons.
    f_equal. rewrite <- app_assoc. f_equal. simpl.
    by destruct (dataRow l).
Qed.

Lemma scan_lines (body : list byte) (lines : list string) :
  documentLines body = Ok lines ->
  scan body = Ok (documentHeader lines, candidateRows lines).
Proof.
  unfold scan, documentLines. intros Hl.
  rewrite scanLines_readLines, Hl, fold_scanLine. simpl.
  by destruct (documentHeader lines).
Qed.

(** C9.  For every station, body and cap the parser returns a record list:
    reading lines from a byte slice yields no error but the end of the
    input, so the error branch of the loop is never taken, and the loop
    ends. *)
Theorem parseNdbcStdMet_returns_rows (station : string) (body : list byte)
    (maxRows : Z) :
  exists rows, parseNdbcStdMet station body maxRows = Ok rows.
Proof.
  destruct (documentLines_returns body) as [lines Hl].
  unfold parseNdbcStdMet. rewrite (scan_lines _ _ Hl). eauto.
Qed.

(** C7.  The records are those of the candidate rows of the document, in
    document order: the first [cap] of them when the cap is positive and
    there are more rows than the cap, all of them otherwise; and a fetch
    either fails before the parser is called or is the parser's result at
    cap 48. *)
Theorem cap_keeps_first_rows (station : string) (body : list byte) (cap : Z) :
  exists lines,
    documentLines body = Ok lines /\
    (let rows := candidateRows lines in
     let header := default fallbackHeader (documentHeader lines) in
     let record := rowOf station (indexHeader 0 header ∅) in
     parseNdbcStdMet station body cap =
     Ok (record <$>
           (if (0 <? cap) && (cap <? Z.of_nat (length rows))
            then take (Z.to_nat cap) rows else rows))) /\
    (forall (net : string -> httpResult) (b : list byte),
        net (stationURL station) = Response 200 b None ->
        fetchStation net station = parseNdbcStdMet station b 48) /\
    (forall net : string -> httpResult,
        (exists b, fetchStation net station = parseNdbcStdMet station b 48)
        \/ (exists e, fetchStation net station = Err e)).
Proof.
  destruct (documentLines_returns body) as [lines Hl].
  exists lines. split; [done|]. split; [|split].
  - unfold parseNdbcStdMet. rewrite (scan_lines _ _ Hl).
    by destruct (documentHeader lines).
  - intros net b Hnet. unfold fetchStation. by rewrite Hnet.
  - intros net. unfold fetchStation.
    destruct (net (stationURL station)) as [e|e|status b [e|]]; eauto.
    all: destruct (negb (status =? 200)); eauto.
Qed.

Lemma cap_keeps_first_rows_witness :
  documentLines threeRows =
    Ok ["2024 03 15 12 00 180 5.1"; "2024 03 15 11 00 170 4.0";
        "2024 03 15 10 00 160 3.5"]%string /\
  (rowOf "SANF1" (indexHeader 0 fallbackHeader ∅) <$>
     [ ["2024"; "03"; "15"; "12"; "00"; "180"; "5.1"];
       ["2024"; "03"; "15"; "11"; "00"; "170"; "4.0"] ]%string) =
  match parseNdbcStdMet "SANF1" threeRows 2 with Ok rows => rows | _ => [] end /\
  fetchStation (fun _ => Response 200 threeRows None) "SANF1" =
  parseNdbcStdMet "SANF1" threeRows 48.
Proof.
  destruct (cap_keeps_first_rows "SANF1" threeRows 2)
    as (lines & Hlines & Hparse & Hfetch & _).
  split; [reflexivity|]. split.
  - vm_compute in Hlines. injection Hlines as <-. rewrite Hparse.
    vm_compute. reflexivity.
  - apply Hfetch. reflexivity.
Defined.

Lemma scan_takes_last_header (body : list byte) :
  exists lines,
    documentLines body = Ok lines /\
    scan body = Ok (documentHeader lines, candidateRows lines).
Proof.
  destruct (documentLines_returns body) as [lines Hl].
  exists lines. split; [done | by apply scan_lines].
Qed.

(** C2, at a document with two qualifying comment lines.  The loop assigns
    [header] at every qualifying line, so the header used for the data row
    is that of the second line, not that of the first: the row's sixth
    column is read as wind speed and its seventh as wind direction. *)
Theorem later_header_replaces_first :
  let l1 := "#YYYY MM DD hh mm WDIR WSPD"%string in
  let l2 := "#YYYY MM DD hh mm WSPD WDIR"%string in
  let l3 := "2024 03 15 12 00 180 5.1"%string in
  let h1 := ["YYYY"; "MM"; "DD"; "hh"; "mm"; "WDIR"; "WSPD"]%string in
  let h2 := ["YYYY"; "MM"; "DD"; "hh"; "mm"; "WSPD"; "WDIR"]%string in
  documentLines twoHeaders = Ok [l1; l2; l3] /\
  headerLine l1 = Some h1 /\
  headerLine l2 = Some h2 /\
  firstHeader [l1; l2; l3] = Some h1 /\
  scan twoHeaders = Ok (Some h2, [strings.Fields l3]) /\
  parseNdbcStdMet "SANF1" twoHeaders 48 =
    Ok [ {| StationID := "SANF1"; Time := time.Date 2024 0 15 12 0;
            WDIRDeg := None; WSPDmS := Some (strconv.float_of_Z 180);
            GUSTmS := None; PREShPa := None; ATMPC := None; WTMPC := None;
            DEWPC := None |} ] /\
  WDIRDeg (rowOf "SANF1" (indexHeader 0 h1 ∅) (strings.Fields l3)) = Some 180.
Proof. vm_compute. repeat split; reflexivity. Qed.

(** The key of a lookup is upper-cased, so the month and the minute of a
    row are always read from the same column. *)
Lemma month_token_is_minute_token (cols : list string) (idx : gmap string nat) :
  get cols idx "MM" = get cols idx "mm".
Proof. reflexivity. Qed.

Lemma hour_lookups_agree (cols : list string) (idx : gmap string nat) :
  get cols idx "HH" = get cols idx "hh".
Proof. reflexivity. Qed.

(** C1, at scenario 1.  The record has the station, the six observations
    and the two absent temperatures the scenario lists, but not its
    timestamp: the index is keyed by upper-cased names, so the minute
    column [mm] takes the key of the month column [MM], the month is read
    from the minute column, and month 0 of 2024 is December 2023. *)
Theorem scenario1_month_read_from_minute :
  let header :=
    ["YYYY"; "MM"; "DD"; "hh"; "mm"; "WDIR"; "WSPD"; "GST"; "WVHT"; "DPD";
     "APD"; "MWD"; "PRES"; "ATMP"; "WTMP"; "DEWP"]%string in
  let cols :=
    ["2024"; "03"; "15"; "12"; "00"; "180"; "5.1"; "6.2"; "0.5"; "6";
     "4.8"; "170"; "1015.2"; "99"; "21.3"; "99"]%string in
  let idx := indexHeader 0 header ∅ in
  scan scenario1 = Ok (Some header, [cols]) /\
  idx !! "MM"%string = Some 4%nat /\
  get cols idx "MM" = "00"%string /\
  parseNdbcStdMet "SANF1" scenario1 48 =
    Ok [ {| StationID := "SANF1";
            Time := 1702641600;
            WDIRDeg := Some 180;
            WSPDmS := Some (S754_finite false 5742089524897382 (-50));
            GUSTmS := Some (S754_finite false 6980579422424269 (-50));
            PREShPa := Some (S754_finite false 8929793636145562 (-43));
            ATMPC := None;
            WTMPC := Some (S754_finite false 5995417003936973 (-48));
            DEWPC := None |} ] /\
  time.Date 2023 12 15 12 0 = 1702641600 /\
  time.Date 2024 3 15 12 0 = 1710504000 /\
  (strconv.ParseFloat "5.1" = (S754_finite false 5742089524897382 (-50), None)
   /\ strconv.ParseFloat "6.2" = (S754_finite false 6980579422424269 (-50), None)
   /\ strconv.ParseFloat "21.3" = (S754_finite false 5995417003936973 (-48), None)).
Proof. vm_compute. repeat split; reflexivity. Qed.

Example scenario1Dots_same_timestamp :
  Time <$> match parseNdbcStdMet "SANF1" scenario1Dots 48 with
           | Ok rows => rows
           | _ => []
           end = [1702641600].
Proof. vm_compute. reflexivity. Qed.

(** * The scalar parsers *)

(** C3.  Each of the five tokens is absent as an integer and as a real;
    ["99.0"] is no integer at all, and as a real it parses to the
    [float64] 99, which the comparison after parsing finds a sentinel. *)
Theorem sentinel_tokens_absent :
  Forall (fun token => atoiP token = None /\ atofP token = None)
    [""; "99"; "999"; "9999"; "99.0"]%string /\
  strconv.ParseFloat "99.0" = (strconv.float_of_Z 99, None) /\
  isSentinelFloat (strconv.float_of_Z 99) = true /\
  strconv.ParseInt "99.0" = (0, Some ErrSyntax).
Proof.
  split; [|by vm_compute].
  repeat constructor; by vm_compute.
Qed.

Lemma int32_of_small (v : Z) :
  - 2 ^ 31 <= v < 2 ^ 31 -> int32_of v = v.
Proof. intros Hv. unfold int32_of. rewrite Z.mod_small; lia. Qed.

Lemma atoiP_parsed (s : string) (v : Z) :
  strconv.ParseInt s = (v, None) -> isSentinelInt v = false ->
  atoiP s = Some (int32_of v).
Proof.
  intros Hp Hs. unfold atoiP. destruct s; [discriminate|].
  by rewrite Hp, Hs.
Qed.

Lemma atoiP_parsed_small (s : string) (v : Z) :
  strconv.ParseInt s = (v, None) -> isSentinelInt v = false ->
  - 2 ^ 31 <= v < 2 ^ 31 -> atoiP s = Some v.
Proof.
  intros Hp Hs Hv. rewrite (atoiP_parsed s v Hp Hs). by rewrite int32_of_small.
Qed.

Lemma atofP_parsed (s : string) (v : strconv.float64) :
  strconv.ParseFloat s = (v, None) -> isSentinelFloat v = false ->
  atofP s = Some v.
Proof.
  intros Hp Hs. unfold atofP. destruct s; [discriminate|].
  by rewrite Hp, Hs.
Qed.

(** C4, at the token ["4294967297"].  It parses as the 64-bit integer
    2^32 + 1, which is no sentinel, and the conversion to [int32] keeps the
    low 32 bits: the value returned is 1.  In the same way ["4294967395"]
    is returned as 99. *)
Theorem atoiP_keeps_low_32_bits :
  strconv.ParseInt "4294967297" = (4294967297, None) /\
  isSentinelInt 4294967297 = false /\
  atoiP "4294967297" = Some 1 /\
  atoiP "4294967395" = Some 99.
Proof. by vm_compute. Qed.

(** * The atomic writer and the reader *)

Lemma tmp_path_length (path suffix : string) :
  String.length (path +:+ suffix)
  = (String.length path + String.length suffix)%nat.
Proof.
  induction path as [|c path IH]; [reflexivity|].
  simpl. by rewrite IH.
Qed.

Lemma tmp_path_differs (path : string) : path +:+ ".tmp" <> path.
Proof.
  intros Heq. apply (f_equal String.length) in Heq.
  rewrite tmp_path_length in Heq. simpl in Heq. lia.
Qed.

Lemma writeParquet_create_fails `{Codec} (flt : faults) (path : string)
    (rows : list MetRow) (fs : gmap string File) (e : error) :
  flt StepCreate = Some e -> writeParquet flt path rows fs = (Some e, fs).
Proof. intros Hc. unfold writeParquet. by rewrite Hc. Qed.

Lemma writeParquet_rename_fails `{Codec} (flt : faults) (path : string)
    (rows : list MetRow) (fs : gmap string File) (e : error) :
  flt StepCreate = None -> flt StepWrite = None ->
  flt StepWriterClose = None -> flt StepFileClose = None ->
  flt StepRename = Some e ->
  exists fs',
    writeParquet flt path rows fs = (Some e, fs') /\
    fs' !! path = fs !! path /\
    fs' !! (path +:+ ".tmp") = Some (encode rows).
Proof.
  intros Hc Hw Hwc Hfc Hr. unfold writeParquet.
  rewrite Hc, Hw, Hwc, Hfc, Hr. eexists. split; [reflexivity|].
  unfold os_Create. split.
  - rewrite !lookup_insert_ne; [done | apply tmp_path_differs ..].
  - by rewrite lookup_insert_eq.
Qed.

Lemma writeParquet_succeeds `{Codec} (flt : faults) (path : string)
    (rows : list MetRow) (fs : gmap string File) :
  (forall st, flt st = None) ->
  writeParquet flt path rows fs =
  (None, <[path := encode rows]> (delete (path +:+ ".tmp") fs)).
Proof.
  intros Hok. unfold writeParquet, os_Rename, os_Create. rewrite !Hok.
  rewrite lookup_insert_eq. f_equal. f_equal.
  apply map_eq. intros p. rewrite !lookup_delete.
  case_decide; [done|]. by rewrite !lookup_insert_ne.
Qed.

(** C5.  When the temporary file has been created and writing the rows,
    closing the encoder or closing the file fails, the writer returns that
    error, the temporary file is gone, and the file at the target path and
    every other file are what they were before the call. *)
Theorem writeParquet_failure_leaves_target `{Codec} (flt : faults)
    (path : string) (rows : list MetRow) (fs : gmap string File) :
  flt StepCreate = None ->
  (exists st, whileWriting st = true /\ is_Some (flt st)) ->
  exists e fs',
    writeParquet flt path rows fs = (Some e, fs') /\
    (exists st, whileWriting st = true /\ flt st = Some e) /\
    fs' !! (path +:+ ".tmp") = None /\
    fs' !! path = fs !! path /\
    (forall p, p <> path +:+ ".tmp" -> fs' !! p = fs !! p).
Proof.
  intros Hc (st & Hst & Hfail).
  assert (Hgone : forall f g : File,
             delete (path +:+ ".tmp")
               (<[path +:+ ".tmp" := f]> (<[path +:+ ".tmp" := g]> fs))
             = delete (path +:+ ".tmp") fs).
  { intros f g. apply map_eq. intros p. rewrite !lookup_delete.
    case_decide; [done|]. by rewrite !lookup_insert_ne. }
  assert (Hgone1 : forall f : File,
             delete (path +:+ ".tmp") (<[path +:+ ".tmp" := f]> fs)
             = delete (path +:+ ".tmp") fs).
  { intros f. apply map_eq. intros p. rewrite !lookup_delete.
    case_decide; [done|]. by rewrite !lookup_insert_ne. }
  assert (Hframe : forall p, p <> path +:+ ".tmp" ->
             delete (path +:+ ".tmp") fs !! p = fs !! p).
  { intros p Hp. by rewrite lookup_delete_ne. }
  unfold writeParquet, os_Create, os_Remove. rewrite Hc.
  destruct (flt StepWrite) as [e1|] eqn:H1.
  { exists e1, (delete (path +:+ ".tmp") fs). rewrite Hgone1.
    split; [done|]. split; [by exists StepWrite|].
    split; [apply lookup_delete_eq|]. split; [|done].
    apply Hframe. intros Heq. by apply (tmp_path_differs path). }
  destruct (flt StepWriterClose) as [e2|] eqn:H2.
  { exists e2, (delete (path +:+ ".tmp") fs). rewrite Hgone1.
    split; [done|]. split; [by exists StepWriterClose|].
    split; [apply lookup_delete_eq|]. split; [|done].
    apply Hframe. intros Heq. by apply (tmp_path_differs path). }
  destruct (flt StepFileClose) as [e3|] eqn:H3.
  { exists e3, (delete (path +:+ ".tmp") fs). rewrite Hgone.
    split; [done|]. split; [by exists StepFileClose|].
    split; [apply lookup_delete_eq|]. split; [|done].
    apply Hframe. intros Heq. by apply (tmp_path_differs path). }
  destruct st; simpl in Hst; try discriminate;
    rewrite ?H1, ?H2, ?H3 in Hfail; by destruct Hfail.
Qed.

Lemma writeParquet_failure_leaves_target_witness :
  exists e fs',
    @writeParquet listCodec (failAt StepWriterClose (ErrOther "disk full"))
      "/data/SANF1_latest.parquet" [sampleRow; sampleRow] sampleFiles
    = (Some e, fs') /\
    fs' !! "/data/SANF1_latest.parquet.tmp"%string = None /\
    fs' !! "/data/SANF1_latest.parquet"%string = Some [sampleRow].
Proof.
  destruct (@writeParquet_failure_leaves_target listCodec
              (failAt StepWriterClose (ErrOther "disk full"))
              "/data/SANF1_latest.parquet" [sampleRow; sampleRow] sampleFiles)
    as (e & fs' & Hw & _ & Htmp & Htarget & _).
  - reflexivity.
  - exists StepWriterClose. split; [reflexivity | by eexists].
  - exists e, fs'. split; [exact Hw|]. split; [exact Htmp|].
    exact (eq_trans Htarget eq_refl).
Defined.

Lemma readAll_eq `{Codec} (fuel : nat) (rem : list MetRow) (fin : error)
    (all : list MetRow) :
  readAll (S fuel) rem fin all =
  let '(got, err, rem') := genericRead rem fin 1024 in
  let all := if (0 <? length got)%nat then all ++ got else all in
  match err with
  | Some EOF => Some (all, None)
  | Some e => Some (all, Some e)
  | None => readAll fuel rem' fin all
  end.
Proof. reflexivity. Qed.

(** What one [Read] does when rows remain: it hands out a non-empty prefix. *)
Lemma genericRead_rows `{Codec} (r : MetRow) (rem : list MetRow) (fin : error)
    (n : nat) :
  (0 < n)%nat ->
  exists k, (0 < k <= length (r :: rem))%nat /\
    genericRead (r :: rem) fin n =
    (take k (r :: rem),
     match drop k (r :: rem) with
     | [] => if eofWithRows then Some fin else None
     | _ => None
     end,
     drop k (r :: rem)).
Proof.
  intros Hn. unfold genericRead.
  exists (Nat.min (Nat.min n (length (r :: rem))) (S (readChunk (length (r :: rem))))).
  split; [|done]. simpl length. lia.
Qed.


Lemma readAll_clean `{Codec} (fuel : nat) (rem all : list MetRow) :
  (length rem < fuel)%nat -> readAll fuel rem EOF all = Some (all ++ rem, None).
Proof.
  revert rem all. induction fuel as [|fuel IH]; intros rem all Hlt; [lia|].
  rewrite readAll_eq. destruct rem as [|r rem].
  - unfold genericRead. simpl. by rewrite app_nil_r.
  - destruct (genericRead_rows r rem EOF 1024) as (k & Hk & ->); [lia|].
    assert (Hgot : (0 <? length (take k (r :: rem)))%nat = true).
    { apply Nat.ltb_lt. rewrite length_take. lia. }
    rewrite Hgot.
    assert (Hsplit : take k (r :: rem) ++ drop k (r :: rem) = r :: rem)
      by apply take_drop.
    assert (Hdrop : (length (drop k (r :: rem)) < fuel)%nat).
    { rewrite length_drop. simpl length in *. lia. }
    destruct (drop k (r :: rem)) as [|d ds] eqn:Hd.
    + rewrite app_nil_r in Hsplit. rewrite Hsplit.
      destruct eofWithRows; [done|].
      rewrite IH; [by rewrite app_nil_r | simpl in *; lia].
    + rewrite IH; [|done]. by rewrite <- app_assoc, Hsplit.
Qed.


(** C6.  When every step of the writer succeeds and the codec reads back
    what it wrote, reading the target path afterwards returns the row list
    that was written and no error; an optional field is then absent in a
    row read exactly when it is absent in the row written. *)
Theorem write_then_read_round_trip `{Codec} (flt : faults) (path : string)
    (rows : list MetRow) (fs : gmap string File) :
  (forall st, flt st = None) ->
  decode (encode rows) = (rows, EOF) ->
  exists fs',
    writeParquet flt path rows fs = (None, fs') /\
    readParquet fs' path = Some (rows, None).
Proof.
  intros Hok Hcodec. eexists. split; [by apply writeParquet_succeeds|].
  unfold readParquet. rewrite lookup_insert_eq, Hcodec.
  rewrite readAll_clean; [done | lia].
Qed.

Lemma write_then_read_round_trip_witness :
  exists fs',
    @writeParquet listCodec noFaults "/data/SANF1_latest.parquet"
      [sampleRow; sampleRow] sampleFiles = (None, fs') /\
    @readParquet listCodec fs' "/data/SANF1_latest.parquet"
    = Some ([sampleRow; sampleRow], None).
Proof.
  apply (@write_then_read_round_trip listCodec noFaults
           "/data/SANF1_latest.parquet" [sampleRow; sampleRow] sampleFiles).
  - intros st. reflexivity.
  - reflexivity.
Defined.

(** * The ingest cycle *)

(** C10.  A station whose fetch succeeds with an empty record list is
    passed over: the loop goes on with the file system it had, whatever the
    faults the world holds ready for the writer, and logs only that no rows
    were parsed; a cycle of that one station ends with the file system it
    began with. *)
Theorem empty_parse_skips_write `{Codec} (w : World) (dataDir s : string)
    (rest : list string) (fs : gmap string File) (log : list logLine) :
  strings.TrimSpace s <> EmptyString ->
  fetchStation (http_get w) (strings.TrimSpace s) = Ok [] ->
  runStations w dataDir (s :: rest) fs log =
    runStations w dataDir rest fs (log ++ [LogNoRows (strings.TrimSpace s)])
  /\ (mkdirAll w dataDir = None ->
      runOnce w [s] dataDir fs = Some (fs, [LogNoRows (strings.TrimSpace s)])).
Proof.
  intros Hs Hfetch.
  assert (Hstep : forall rest' log',
             runStations w dataDir (s :: rest') fs log' =
             runStations w dataDir rest' fs
               (log' ++ [LogNoRows (strings.TrimSpace s)])).
  { intros rest' log'. cbn [runStations].
    apply String.eqb_neq in Hs. by rewrite Hs, Hfetch. }
  split; [apply Hstep|].
  intros Hmk. unfold runOnce. rewrite Hmk. by rewrite Hstep.
Qed.

Lemma empty_parse_skips_write_witness :
  @runOnce listCodec quietWorld [" sanf1 "%string] "/data" sampleFiles
  = Some (sampleFiles, [LogNoRows "sanf1"]).
Proof.
  apply (@empty_parse_skips_write listCodec quietWorld "/data" " sanf1 " []
           sampleFiles []).
  - discriminate.
  - reflexivity.
  - reflexivity.
Defined.

(** * The stream handler *)






(** * More of the parser: the column index *)

Lemma indexHeader_unmatched (header : list string) (i : nat)
    (idx : gmap string nat) (k : string) :
  (forall h, h ∈ header -> strings.ToUpper h <> k) ->
  indexHeader i header idx !! k = idx !! k.
Proof.
  revert i idx. induction header as [|h0 t IH]; intros i idx Hno; [done|].
  cbn [indexHeader]. rewrite IH.
  - apply lookup_insert_ne, Hno, list_elem_of_here.
  - intros h Hh. by apply Hno, list_elem_of_further.
Qed.

Lemma indexHeader_last (header : list string) (i : nat)
    (idx : gmap string nat) (k : string) (j : nat) (h : string) :
  header !! j = Some h -> strings.ToUpper h = k ->
  (forall j' h', header !! j' = Some h' -> strings.ToUpper h' = k ->
                 (j' <= j)%nat) ->
  indexHeader i header idx !! k = Some (i + j)%nat.
Proof.
  revert i idx j. induction header as [|h0 t IH]; intros i idx j Hj Hk Hmax;
    [done|].
  cbn [indexHeader]. destruct j as [|j].
  - injection Hj as ->. rewrite indexHeader_unmatched.
    + rewrite Hk, lookup_insert_eq. f_equal. lia.
    + intros h' Hh' Hk'. apply list_elem_of_lookup_1 in Hh' as [j' Hj'].
      specialize (Hmax (S j') h' Hj' Hk'). lia.
  - rewrite (IH (S i) _ j); [f_equal; lia | exact Hj | exact Hk |].
    intros j' h' Hj' Hk'. specialize (Hmax (S j') h' Hj' Hk'). lia.
Qed.

(** X1.  A lookup by name reads the column under the last header name that
    equals the key up to letter case, and gives the empty string when the
    row has no such column. *)
Theorem get_reads_last_matching_column (header cols : list string)
    (key : string) (j : nat) (h : string) :
  header !! j = Some h ->
  strings.ToUpper h = strings.ToUpper key ->
  (forall j' h', header !! j' = Some h' ->
                 strings.ToUpper h' = strings.ToUpper key -> (j' <= j)%nat) ->
  get cols (indexHeader 0 header ∅) key = default EmptyString (cols !! j).
Proof.
  intros Hj Hk Hmax. unfold get.
  by rewrite (indexHeader_last header 0 ∅ _ j h Hj Hk Hmax).
Qed.

Lemma get_reads_last_matching_column_witness :
  get ["2024"; "03"; "15"; "12"; "30"]%string
      (indexHeader 0 ["YYYY"; "MM"; "DD"; "hh"; "mm"]%string ∅) "Mm"
  = "30"%string.
Proof.
  apply (get_reads_last_matching_column
           ["YYYY"; "MM"; "DD"; "hh"; "mm"]%string
           ["2024"; "03"; "15"; "12"; "30"]%string "Mm" 4 "mm").
  - reflexivity.
  - reflexivity.
  - intros j' h' Hj' _. apply lookup_lt_Some in Hj'. simpl in Hj'. lia.
Defined.

(** X2.  A lookup by a name that no header name equals up to letter case
    gives the empty string, whatever the row. *)
Theorem get_unknown_name_is_empty (header cols : list string) (key : string) :
  (forall h, h ∈ header -> strings.ToUpper h <> strings.ToUpper key) ->
  get cols (indexHeader 0 header ∅) key = EmptyString.
Proof.
  intros Hno. unfold get.
  by rewrite (indexHeader_unmatched header 0 ∅ _ Hno), lookup_empty.
Qed.

Lemma get_unknown_name_is_empty_witness :
  get ["2024"; "03"]%string (indexHeader 0 ["YYYY"; "MM"]%string ∅) "WDIR"
  = EmptyString.
Proof.
  apply get_unknown_name_is_empty.
  intros h Hh Heq.
  apply elem_of_cons in Hh as [->|Hh]; [discriminate|].
  apply elem_of_cons in Hh as [->|Hh]; [discriminate|].
  by apply elem_of_nil in Hh.
Defined.

(** * More of the parser: which lines become records *)

Lemma parse_lines (station : string) (body : list byte) (cap : Z)
    (lines : list string) :
  documentLines body = Ok lines ->
  parseNdbcStdMet station body cap =
  Ok (rowOf station
        (indexHeader 0 (default fallbackHeader (documentHeader lines)) ∅)
      <$> capRows cap (candidateRows lines)).
Proof.
  intros Hl. unfold parseNdbcStdMet. rewrite (scan_lines _ _ Hl).
  by destruct (documentHeader lines).
Qed.

Lemma trimRight_kept (c : ascii) (s : string) :
  strings.isSpace c = false -> strings.trimRight (String c s) <> EmptyString.
Proof.
  intros Hc. cbn [strings.trimRight].
  destruct (strings.trimRight s); [by rewrite Hc | done].
Qed.

Lemma blank_line_has_no_field (s : string) :
  strings.TrimSpace s = EmptyString -> strings.Fields s = [].
Proof.
  unfold strings.TrimSpace, strings.Fields.
  induction s as [|c s IH]; [done|]. cbn [strings.trimLeft strings.fieldsFrom].
  destruct (strings.isSpace c) eqn:Hc; [exact IH|].
  intros Hnil. by destruct (trimRight_kept c s Hc).
Qed.

Lemma dataRow_eq (line : string) :
  dataRow line =
  if negb (strings.HasPrefix line "#")
     && (5 <=? length (strings.Fields line))%nat
  then Some (strings.Fields line) else None.
Proof.
  unfold dataRow, scanLine.
  destruct (strings.HasPrefix line "#"); [by destruct (_ || _)|].
  destruct (String.eqb_spec (strings.TrimSpace line) "") as [Hblank|_].
  - by rewrite (blank_line_has_no_field _ Hblank).
  - cbn [negb andb].
    by destruct (5 <=? length (strings.Fields line))%nat.
Qed.

Lemma candidateRows_filter (lines : list string) :
  candidateRows lines =
  strings.Fields <$>
    List.filter
      (fun l => negb (strings.HasPrefix l "#")
                && (5 <=? length (strings.Fields l))%nat)
      lines.
Proof.
  unfold candidateRows. induction lines as [|l lines IH]; [done|].
  cbn [List.filter]. change (omap dataRow (l :: lines))
    with (match dataRow l with
          | Some c => c :: omap dataRow lines
          | None => omap dataRow lines
          end).
  rewrite dataRow_eq, IH.
  by destruct (negb _ && _).
Qed.

(** X3.  The records are, in order and up to the cap, those of the lines
    that do not begin with the comment marker and split into at least five
    fields; a blank line is such a line of no field, so the test for blank
    lines drops nothing the count of fields would keep. *)
Theorem records_come_from_long_data_lines (station : string)
    (body : list byte) (cap : Z) :
  exists lines,
    documentLines body = Ok lines /\
    parseNdbcStdMet station body cap =
    Ok (rowOf station
          (indexHeader 0 (default fallbackHeader (documentHeader lines)) ∅)
        <$> capRows cap
              (strings.Fields <$>
                 List.filter
                   (fun l => negb (strings.HasPrefix l "#")
                             && (5 <=? length (strings.Fields l))%nat)
                   lines)).
Proof.
  destruct (documentLines_returns body) as [lines Hl].
  exists lines. split; [done|].
  by rewrite (parse_lines _ _ _ _ Hl), candidateRows_filter.
Qed.

Lemma capRows_length (cap : Z) (data : list (list string)) :
  (length (capRows cap data) <= length data)%nat /\
  (0 < cap -> Z.of_nat (length (capRows cap data)) <= cap).
Proof.
  unfold capRows.
  destruct (Z.ltb_spec 0 cap), (Z.ltb_spec cap (Z.of_nat (length data)));
    cbn [andb]; rewrite ?length_take.
  all: lia.
Qed.

(** X4.  When the cap is positive the parser returns at most [cap] records,
    never more records than the document has lines, and every record
    carries the station identifier in upper case. *)
Theorem parse_bounded_and_stamped (station : string) (body : list byte)
    (cap : Z) (rows : list MetRow) :
  parseNdbcStdMet station body cap = Ok rows ->
  (0 < cap -> Z.of_nat (length rows) <= cap) /\
  (exists lines, documentLines body = Ok lines /\
                 (length rows <= length lines)%nat) /\
  Forall (fun r => StationID r = strings.ToUpper station) rows.
Proof.
  destruct (documentLines_returns body) as [lines Hl].
  rewrite (parse_lines _ _ _ _ Hl). intros [= <-].
  rewrite length_fmap.
  destruct (capRows_length cap (candidateRows lines)) as [Hle Hcap].
  split; [exact Hcap|]. split.
  - exists lines. split; [done|].
    assert (Hrows : (length (candidateRows lines) <= length lines)%nat).
    { rewrite candidateRows_filter, length_fmap.
      apply List.filter_length_le. }
    lia.
  - apply Forall_fmap, Forall_forall. by intros cols _.
Qed.

Lemma parse_bounded_and_stamped_witness :
  exists rows,
    parseNdbcStdMet "sanf1" threeRows 2 = Ok rows /\
    Z.of_nat (length rows) <= 2 /\
    Forall (fun r => StationID r = "SANF1"%string) rows.
Proof.
  eexists. split; [vm_compute; reflexivity|].
  destruct (parse_bounded_and_stamped "sanf1" threeRows 2 _ eq_refl)
    as (Hcap & _ & Hst).
  split; [apply Hcap; lia | exact Hst].
Defined.

(** * More of the parser: the fields of a record *)

Lemma get_without_column (header cols : list string) (key : string) :
  (forall h, h ∈ header -> strings.ToUpper h <> strings.ToUpper key) ->
  get cols (indexHeader 0 header ∅) key = EmptyString.
Proof.
  intros Hno. unfold get.
  by rewrite (indexHeader_unmatched header 0 ∅ _ Hno), lookup_empty.
Qed.

(** X5.  A field whose column name the header lacks is absent in every
    record of the document: the missing column reads as the empty token,
    which both scalar parsers take for absent. *)
Theorem absent_column_gives_absent_field (station : string)
    (body : list byte) (cap : Z) (lines : list string) (rows : list MetRow) :
  documentLines body = Ok lines ->
  parseNdbcStdMet station body cap = Ok rows ->
  let header := default fallbackHeader (documentHeader lines) in
  let lacks (key : string) :=
    forall h, h ∈ header -> strings.ToUpper h <> key in
  Forall (fun r =>
            (lacks "WDIR"%string -> WDIRDeg r = None) /\
            (lacks "WSPD"%string -> WSPDmS r = None) /\
            (lacks "GST"%string -> GUSTmS r = None) /\
            (lacks "PRES"%string -> PREShPa r = None) /\
            (lacks "ATMP"%string -> ATMPC r = None) /\
            (lacks "WTMP"%string -> WTMPC r = None) /\
            (lacks "DEWP"%string -> DEWPC r = None)) rows.
Proof.
  intros Hl. rewrite (parse_lines _ _ _ _ Hl). intros [= <-] header lacks.
  apply Forall_fmap, Forall_forall. intros cols _.
  repeat split; intros Hno; cbn [rowOf WDIRDeg WSPDmS GUSTmS PREShPa ATMPC
                                   WTMPC DEWPC]; fold header;
    first [ by rewrite (get_without_column header cols "WDIR" Hno)
          | by rewrite (get_without_column header cols "WSPD" Hno)
          | by rewrite (get_without_column header cols "GST" Hno)
          | by rewrite (get_without_column header cols "PRES" Hno)
          | by rewrite (get_without_column header cols "ATMP" Hno)
          | by rewrite (get_without_column header cols "WTMP" Hno)
          | by rewrite (get_without_column header cols "DEWP" Hno) ].
Qed.

Lemma absent_column_gives_absent_field_witness :
  Forall (fun r => PREShPa r = None /\ ATMPC r = None)
    (match parseNdbcStdMet "SANF1" twoHeaders 48 with
     | Ok rows => rows
     | _ => []
     end).
Proof.
  assert (Hl : documentLines twoHeaders =
               Ok ["#YYYY MM DD hh mm WDIR WSPD";
                   "#YYYY MM DD hh mm WSPD WDIR";
                   "2024 03 15 12 00 180 5.1"]%string) by reflexivity.
  destruct (parseNdbcStdMet "SANF1" twoHeaders 48) as [rows| |] eqn:Hp;
    [|constructor..].
  pose proof (absent_column_gives_absent_field _ _ _ _ _ Hl Hp) as Hall.
  cbv zeta in Hall. eapply Forall_impl; [exact Hall|].
  intros r (_ & _ & _ & Hpres & Hatmp & _). split.
  - apply Hpres. intros h Hh Heq. vm_compute in Hh.
    repeat (apply elem_of_cons in Hh as [->|Hh]; [discriminate|]).
    by apply elem_of_nil in Hh.
  - apply Hatmp. intros h Hh Heq. vm_compute in Hh.
    repeat (apply elem_of_cons in Hh as [->|Hh]; [discriminate|]).
    by apply elem_of_nil in Hh.
Defined.

Lemma atofP_sound (s : string) (v : strconv.float64) :
  atofP s = Some v -> isSentinelFloat v = false.
Proof.
  unfold atofP. destruct s as [|c s]; [discriminate|].
  destruct (strconv.ParseFloat (String c s)) as [v' [e|]]; [discriminate|].
  destruct (isSentinelFloat v') eqn:Hs; [discriminate|].
  by intros [= <-].
Qed.

Lemma int32_of_range (v : Z) : - 2 ^ 31 <= int32_of v < 2 ^ 31.
Proof.
  unfold int32_of.
  pose proof (Z.mod_pos_bound (v + 2 ^ 31) (2 ^ 32) eq_refl). lia.
Qed.

Lemma atoiP_range (s : string) (v : Z) :
  atoiP s = Some v -> - 2 ^ 31 <= v < 2 ^ 31.
Proof.
  unfold atoiP. destruct s as [|c s]; [discriminate|].
  destruct (strconv.ParseInt (String c s)) as [n [e|]]; [discriminate|].
  destruct (isSentinelInt n); [discriminate|].
  intros [= <-]. apply int32_of_range.
Qed.

(** X6.  No record the parser returns holds a sentinel in a real field: a
    wind speed, gust, pressure or temperature that is present is none of
    99, 999 and 9999; and a wind direction that is present is within the
    range of [int32]. *)
Theorem record_reals_are_never_sentinels (station : string)
    (body : list byte) (cap : Z) (rows : list MetRow) :
  parseNdbcStdMet station body cap = Ok rows ->
  Forall (fun r =>
            (forall v, WSPDmS r = Some v -> isSentinelFloat v = false) /\
            (forall v, GUSTmS r = Some v -> isSentinelFloat v = false) /\
            (forall v, PREShPa r = Some v -> isSentinelFloat v = false) /\
            (forall v, ATMPC r = Some v -> isSentinelFloat v = false) /\
            (forall v, WTMPC r = Some v -> isSentinelFloat v = false) /\
            (forall v, DEWPC r = Some v -> isSentinelFloat v = false) /\
            (forall v, WDIRDeg r = Some v -> - 2 ^ 31 <= v < 2 ^ 31)) rows.
Proof.
  destruct (documentLines_returns body) as [lines Hl].
  rewrite (parse_lines _ _ _ _ Hl). intros [= <-].
  apply Forall_fmap, Forall_forall. intros cols _.
  repeat (split; [intros v Hv; by apply (atofP_sound _ _ Hv)|]).
  intros v Hv. by apply (atoiP_range _ _ Hv).
Qed.

Lemma record_reals_are_never_sentinels_witness :
  Forall (fun r => forall v, WSPDmS r = Some v -> isSentinelFloat v = false)
    (match parseNdbcStdMet "SANF1" scenario1 48 with
     | Ok rows => rows
     | _ => []
     end).
Proof.
  destruct (parseNdbcStdMet "SANF1" scenario1 48) as [rows| |] eqn:Hp;
    [|constructor..].
  eapply Forall_impl;
    [exact (record_reals_are_never_sentinels _ _ _ _ Hp)|].
  by intros r (H & _).
Defined.

(** * More of the fetch *)

Lemma parse_returns (station : string) (body : list byte) (cap : Z) :
  exists rows, parseNdbcStdMet station body cap = Ok rows
               /\ (0 < cap -> Z.of_nat (length rows) <= cap).
Proof.
  destruct (documentLines_returns body) as [lines Hl].
  rewrite (parse_lines _ _ _ _ Hl). eexists. split; [done|].
  rewrite length_fmap. apply capRows_length.
Qed.

(** X7.  A fetch succeeds exactly when the transport answers with status
    200 and the body is read without error; it then returns the parser's
    records, at most 48 of them.  Any other status is returned as an error
    that carries the status, and the parser is not reached. *)
Theorem fetchStation_outcomes (net : string -> httpResult) (station : string) :
  (forall rows, fetchStation net station = Ok rows ->
     (length rows <= 48)%nat /\
     exists b, net (stationURL station) = Response 200 b None
               /\ parseNdbcStdMet station b 48 = Ok rows) /\
  (forall b, net (stationURL station) = Response 200 b None ->
     exists rows, fetchStation net station = Ok rows) /\
  (forall status b readErr,
     net (stationURL station) = Response status b readErr ->
     status <> 200 -> fetchStation net station = Err (ErrHTTP status)) /\
  fetchStation net station <> Diverged.
Proof.
  unfold fetchStation. repeat split.
  - destruct (net (stationURL station)) as [e|e|status b [e|]]; try done.
    + by destruct (negb (status =? 200)).
    + destruct (Z.eqb_spec status 200) as [->|Hne]; [|done].
      cbn [negb]. destruct (parse_returns station b 48) as (rows' & Hp & Hcap).
      rewrite Hp in H. injection H as <-. lia.
  - destruct (net (stationURL station)) as [e|e|status b [e|]]; try done.
    + by destruct (negb (status =? 200)).
    + destruct (Z.eqb_spec status 200) as [->|Hne]; [|done]. eauto.
  - intros b Hnet. rewrite Hnet. cbn.
    destruct (parse_returns station b 48) as (rows & Hp & _). eauto.
  - intros status b readErr Hnet Hne. rewrite Hnet.
    by destruct (Z.eqb_spec status 200).
  - destruct (net (stationURL station)) as [e|e|status b [e|]]; try done.
    + by destruct (negb (status =? 200)).
    + destruct (negb (status =? 200)); [done|].
      by destruct (parse_returns station b 48) as (rows & -> & _).
Qed.

Lemma fetchStation_outcomes_witness :
  (exists rows, fetchStation (http_get busyWorld) "sanf1" = Ok rows) /\
  fetchStation (http_get downWorld) "sanf1" = Err (ErrHTTP 500).
Proof.
  split.
  - destruct (fetchStation_outcomes (http_get busyWorld) "sanf1")
      as (_ & Hok & _).
    apply (Hok threeRows). reflexivity.
  - destruct (fetchStation_outcomes (http_get downWorld) "sanf1")
      as (_ & _ & Herr & _).
    apply (Herr 500 [] None); [reflexivity | discriminate].
Defined.




(** * More of the atomic writer *)

Lemma writeParquet_cases `{Codec} (flt : faults) (path : string)
    (rows : list MetRow) (fs : gmap string File) :
  let tmp := path +:+ ".tmp" in
  (exists e, flt StepCreate = Some e
             /\ writeParquet flt path rows fs = (Some e, fs)) \/
  (exists e st, whileWriting st = true /\ flt st = Some e
                /\ writeParquet flt path rows fs = (Some e, delete tmp fs)) \/
  (exists e, flt StepRename = Some e
             /\ writeParquet flt path rows fs
                = (Some e, <[tmp := encode rows]> fs)) \/
  ((forall st, flt st = None)
   /\ writeParquet flt path rows fs
      = (None, <[path := encode rows]> (delete tmp fs))).
Proof.
  intros tmp.
  assert (Hgone : forall f g : File,
             delete tmp (<[tmp := f]> (<[tmp := g]> fs)) = delete tmp fs).
  { intros f g. apply map_eq. intros p. rewrite !lookup_delete.
    case_decide; [done|]. by rewrite !lookup_insert_ne. }
  assert (Hgone1 : forall f : File,
             delete tmp (<[tmp := f]> fs) = delete tmp fs).
  { intros f. apply map_eq. intros p. rewrite !lookup_delete.
    case_decide; [done|]. by rewrite !lookup_insert_ne. }
  unfold writeParquet, os_Create, os_Remove, os_Rename. fold tmp.
  destruct (flt StepCreate) as [e0|] eqn:H0; [left; eauto|].
  destruct (flt StepWrite) as [e1|] eqn:H1.
  { right; left. exists e1, StepWrite. by rewrite Hgone1. }
  destruct (flt StepWriterClose) as [e2|] eqn:H2.
  { right; left. exists e2, StepWriterClose. by rewrite Hgone1. }
  destruct (flt StepFileClose) as [e3|] eqn:H3.
  { right; left. exists e3, StepFileClose. by rewrite Hgone. }
  destruct (flt StepRename) as [e4|] eqn:H4.
  { right; right; left. exists e4. split; [done|]. f_equal.
    apply map_eq. intros p. destruct (decide (p = tmp)) as [->|Hp].
    - by rewrite !lookup_insert_eq.
    - by rewrite !lookup_insert_ne. }
  right; right; right. split; [by intros []|].
  rewrite lookup_insert_eq. by rewrite Hgone.
Qed.



(** X10.  A write returns nil exactly when none of its five calls fails,
    and then the target path holds the encoding of the rows, the
    temporary file is gone and every other file is as before. *)
Theorem writeParquet_nil_iff_no_fault `{Codec} (flt : faults)
    (path : string) (rows : list MetRow) (fs : gmap string File) :
  (fst (writeParquet flt path rows fs) = None <-> forall st, flt st = None) /\
  (fst (writeParquet flt path rows fs) = None ->
   let fs' := snd (writeParquet flt path rows fs) in
   fs' !! path = Some (encode rows) /\
   fs' !! (path +:+ ".tmp") = None /\
   forall p, p <> path -> p <> path +:+ ".tmp" -> fs' !! p = fs !! p).
Proof.
  pose proof (tmp_path_differs path) as Hne.
  destruct (writeParquet_cases flt path rows fs)
    as [(e' & Hf & Hr)|[(e' & st & _ & Hf & Hr)|[(e' & Hf & Hr)|(Hok & Hr)]]];
    rewrite Hr; cbn [fst snd].
  1-3: split; [split; [discriminate | intros Hall; by rewrite Hall in Hf]
              | discriminate].
  split; [done|]. intros _. split; [apply lookup_insert_eq|]. split.
  - rewrite lookup_insert_ne; [apply lookup_delete_eq | done].
  - intros p Hp Hp'. rewrite lookup_insert_ne; [|done].
    by rewrite lookup_delete_ne.
Qed.

Lemma writeParquet_nil_iff_no_fault_witness :
  let fs' :=
    snd (@writeParquet listCodec noFaults "/data/SMKF1_latest.parquet"
           [sampleRow] sampleFiles) in
  fs' !! "/data/SMKF1_latest.parquet"%string = Some [sampleRow] /\
  fs' !! "/data/SMKF1_latest.parquet.tmp"%string = None.
Proof.
  destruct (@writeParquet_nil_iff_no_fault listCodec noFaults
              "/data/SMKF1_latest.parquet" [sampleRow] sampleFiles)
    as [_ Hstate].
  destruct (Hstate eq_refl) as (Htarget & Htmp & _).
  split; [exact Htarget | exact Htmp].
Defined.

(** X11.  Whatever fails, a write touches no path but the target and the
    temporary path beside it. *)
Theorem writeParquet_touches_two_paths `{Codec} (flt : faults)
    (path : string) (rows : list MetRow) (fs : gmap string File) (p : string) :
  p <> path -> p <> path +:+ ".tmp" ->
  snd (writeParquet flt path rows fs) !! p = fs !! p.
Proof.
  intros Hp Hp'.
  destruct (writeParquet_cases flt path rows fs)
    as [(e' & Hf & Hr)|[(e' & st & _ & Hf & Hr)|[(e' & Hf & Hr)|(Hok & Hr)]]];
    rewrite Hr; cbn [snd]; [done | ..].
  - by rewrite lookup_delete_ne.
  - by rewrite lookup_insert_ne.
  - rewrite lookup_insert_ne; [|done]. by rewrite lookup_delete_ne.
Qed.

Lemma writeParquet_touches_two_paths_witness :
  snd (@writeParquet listCodec noFaults "/data/SANF1_latest.parquet" []
         sampleFiles) !! "/data/notes.txt"%string
  = Some [sampleRow; sampleRow].
Proof.
  exact (eq_trans
           (@writeParquet_touches_two_paths listCodec noFaults
              "/data/SANF1_latest.parquet" [] sampleFiles "/data/notes.txt"
              ltac:(discriminate) ltac:(discriminate))
           eq_refl).
Defined.



(** * More of the ingest cycle *)

Lemma writeParquet_frame `{Codec} (flt : faults) (path : string)
    (rows : list MetRow) (fs : gmap string File) (p : string) :
  p <> path -> p <> path +:+ ".tmp" ->
  snd (writeParquet flt path rows fs) !! p = fs !! p.
Proof.
  intros Hp Hp'.
  destruct (writeParquet_cases flt path rows fs)
    as [(e' & Hf & Hr)|[(e' & st & _ & Hf & Hr)|[(e' & Hf & Hr)|(Hok & Hr)]]];
    rewrite Hr; cbn [snd]; [done | ..].
  - by rewrite lookup_delete_ne.
  - by rewrite lookup_insert_ne.
  - rewrite lookup_insert_ne; [|done]. by rewrite lookup_delete_ne.
Qed.

Lemma fetchStation_returns (net : string -> httpResult) (station : string) :
  fetchStation net station <> Diverged.
Proof.
  unfold fetchStation.
  destruct (net (stationURL station)) as [e|e|status b [e|]]; try done.
  - by destruct (negb (status =? 200)).
  - destruct (negb (status =? 200)); [done|].
    by destruct (parse_returns station b 48) as (rows & -> & _).
Qed.

(** The stations that are not blank, each of which the loop fetches. *)
Lemma runStations_shape `{Codec} (w : World) (dataDir : string)
    (stations : list string) (fs : gmap string File) :
  exists fs' lines,
    (forall log, runStations w dataDir stations fs log = Some (fs', log ++ lines))
    /\ length lines
       = length (List.filter
                   (fun s => negb (String.eqb (strings.TrimSpace s) ""))
                   stations)
    /\ (forall p,
          (forall s, s ∈ stations ->
             let out := filepath_Join w dataDir
                          (strings.ToUpper (strings.TrimSpace s)
                           +:+ "_latest.parquet") in
             p <> out /\ p <> out +:+ ".tmp") ->
          fs' !! p = fs !! p).
Proof.
  revert fs. induction stations as [|s rest IH]; intros fs.
  - exists fs, []. split; [intros log; by rewrite app_nil_r|]. by split.
  - cbn [runStations List.filter].
    destruct (String.eqb (strings.TrimSpace s) "") eqn:Hblank; cbn [negb].
    { destruct (IH fs) as (fs' & lines & Hrun & Hlen & Hframe).
      exists fs', lines. split; [exact Hrun|]. split; [exact Hlen|].
      intros p Hp. apply Hframe. intros s' Hs'.
      by apply Hp, list_elem_of_further. }
    pose proof (fetchStation_returns (http_get w) (strings.TrimSpace s)) as Hret.
    destruct (fetchStation (http_get w) (strings.TrimSpace s))
      as [rows|e|]; [| |done].
    + destruct (length rows =? 0)%nat.
      { destruct (IH fs) as (fs' & lines & Hrun & Hlen & Hframe).
        exists fs', (LogNoRows (strings.TrimSpace s) :: lines).
        split; [|split].
        - intros log. rewrite Hrun, <- app_assoc. done.
        - cbn [length]. by rewrite Hlen.
        - intros p Hp. apply Hframe. intros s' Hs'.
          by apply Hp, list_elem_of_further. }
      set (out := filepath_Join w dataDir
                    (strings.ToUpper (strings.TrimSpace s) +:+ "_latest.parquet")).
      pose proof (fun p => writeParquet_frame (write_faults w out) out rows fs p)
        as Hwrite.
      destruct (writeParquet (write_faults w out) out rows fs) as [[e|] fs1];
        cbn [snd] in Hwrite;
        destruct (IH fs1) as (fs' & lines & Hrun & Hlen & Hframe).
      * exists fs', (LogWriteError (strings.TrimSpace s) e :: lines).
        split; [|split].
        -- intros log. rewrite Hrun, <- app_assoc. done.
        -- cbn [length]. by rewrite Hlen.
        -- intros p Hp. rewrite Hframe.
           ++ destruct (Hp s (list_elem_of_here _ _)). by apply Hwrite.
           ++ intros s' Hs'. by apply Hp, list_elem_of_further.
      * exists fs', (LogWrote out (length rows) :: lines).
        split; [|split].
        -- intros log. rewrite Hrun, <- app_assoc. done.
        -- cbn [length]. by rewrite Hlen.
        -- intros p Hp. rewrite Hframe.
           ++ destruct (Hp s (list_elem_of_here _ _)). by apply Hwrite.
           ++ intros s' Hs'. by apply Hp, list_elem_of_further.
    + destruct (IH fs) as (fs' & lines & Hrun & Hlen & Hframe).
      exists fs', (LogWarn (strings.TrimSpace s) e :: lines).
      split; [|split].
      * intros log. rewrite Hrun, <- app_assoc. done.
      * cbn [length]. by rewrite Hlen.
      * intros p Hp. apply Hframe. intros s' Hs'.
        by apply Hp, list_elem_of_further.
Qed.

(** X13.  A cycle always ends.  When the data directory cannot be made it
    fetches nothing, changes no file and logs that one error; otherwise it
    logs exactly one line for each station name that is not blank. *)
Theorem runOnce_one_line_per_station `{Codec} (w : World)
    (stations : list string) (dataDir : string) (fs : gmap string File) :
  (forall e, mkdirAll w dataDir = Some e ->
     runOnce w stations dataDir fs = Some (fs, [LogMkdirError dataDir e])) /\
  (mkdirAll w dataDir = None ->
   exists fs' log,
     runOnce w stations dataDir fs = Some (fs', log) /\
     length log
     = length (List.filter
                 (fun s => negb (String.eqb (strings.TrimSpace s) ""))
                 stations)).
Proof.
  unfold runOnce. split.
  - by intros e ->.
  - intros ->.
    destruct (runStations_shape w dataDir stations fs)
      as (fs' & lines & Hrun & Hlen & _).
    exists fs', lines. by rewrite Hrun.
Qed.

Lemma runOnce_one_line_per_station_witness :
  exists fs' log,
    @runOnce listCodec busyWorld ["sanf1"; " "; "smkf1"; ""]%string "/data" ∅
    = Some (fs', log) /\ length log = 2%nat.
Proof.
  destruct (@runOnce_one_line_per_station listCodec busyWorld
              ["sanf1"; " "; "smkf1"; ""]%string "/data" ∅) as [_ Hok].
  destruct (Hok eq_refl) as (fs' & log & Hrun & Hlen).
  exists fs', log. split; [exact Hrun | exact Hlen].
Defined.

(** X14.  A cycle touches no path but, for each station in its list, the
    station's file in the data directory and the temporary path beside it. *)
Theorem runOnce_touches_station_files_only `{Codec} (w : World)
    (stations : list string) (dataDir : string) (fs fs' : gmap string File)
    (log : list logLine) (p : string) :
  runOnce w stations dataDir fs = Some (fs', log) ->
  (forall s, s ∈ stations ->
     let out := filepath_Join w dataDir
                  (strings.ToUpper (strings.TrimSpace s) +:+ "_latest.parquet") in
     p <> out /\ p <> out +:+ ".tmp") ->
  fs' !! p = fs !! p.
Proof.
  unfold runOnce. destruct (mkdirAll w dataDir) as [e|].
  - by intros [= <- <-].
  - destruct (runStations_shape w dataDir stations fs)
      as (fs1 & lines & Hrun & _ & Hframe).
    rewrite Hrun. intros [= <- <-]. apply Hframe.
Qed.

Lemma runOnce_touches_station_files_only_witness :
  exists fs' log,
    @runOnce listCodec busyWorld ["sanf1"]%string "/data" sampleFiles
    = Some (fs', log) /\
    fs' !! "/data/notes.txt"%string = Some [sampleRow; sampleRow].
Proof.
  destruct (@runOnce listCodec busyWorld ["sanf1"]%string "/data" sampleFiles)
    as [[fs' log]|] eqn:Hrun; [|vm_compute in Hrun; discriminate].
  exists fs', log. split; [reflexivity|].
  refine (eq_trans
            (@runOnce_touches_station_files_only listCodec busyWorld
               ["sanf1"]%string "/data" sampleFiles fs' log "/data/notes.txt"
               Hrun _) eq_refl).
  intros s Hs. apply list_elem_of_singleton in Hs as ->.
  split; discriminate.
Defined.

Lemma runStations_app `{Codec} (w : World) (dataDir : string)
    (l1 l2 : list string) (fs : gmap string File) (log : list logLine) :
  runStations w dataDir (l1 ++ l2) fs log =
  match runStations w dataDir l1 fs log with
  | Some (fs1, log1) => runStations w dataDir l2 fs1 log1
  | None => None
  end.
Proof.
  revert fs log. induction l1 as [|s l1 IH]; intros fs log; [done|].
  cbn [app runStations].
  destruct (String.eqb (strings.TrimSpace s) ""); [apply IH|].
  destruct (fetchStation (http_get w) (strings.TrimSpace s)) as [rows|e|];
    [|apply IH|done].
  destruct (length rows =? 0)%nat; [apply IH|].
  destruct (writeParquet _ _ rows fs) as [[e|] fs1]; apply IH.
Qed.

Lemma runStations_files `{Codec} (w : World) (dataDir : string)
    (stations : list string) (fs : gmap string File) (log1 log2 : list logLine) :
  fst <$> runStations w dataDir stations fs log1
  = fst <$> runStations w dataDir stations fs log2.
Proof.
  destruct (runStations_shape w dataDir stations fs) as (fs' & lines & Hrun & _).
  by rewrite !Hrun.
Qed.

(** X15.  A station whose name is blank, whose fetch fails or whose
    document gives no record does nothing to the files: the files a cycle
    leaves are those the cycle would leave without that station in its
    list, wherever in the list it stands. *)
Theorem skipped_station_changes_no_file `{Codec} (w : World)
    (dataDir : string) (before after : list string) (s : string)
    (fs : gmap string File) :
  strings.TrimSpace s = EmptyString
  \/ (exists e, fetchStation (http_get w) (strings.TrimSpace s) = Err e)
  \/ fetchStation (http_get w) (strings.TrimSpace s) = Ok [] ->
  fst <$> runStations w dataDir (before ++ s :: after) fs []
  = fst <$> runStations w dataDir (before ++ after) fs [].
Proof.
  intros Hskip. rewrite !runStations_app.
  destruct (runStations w dataDir before fs []) as [[fs1 log1]|]; [|done].
  cbn [runStations].
  destruct Hskip as [Hblank|[[e Herr]|Hnone]].
  - by rewrite Hblank.
  - destruct (String.eqb (strings.TrimSpace s) ""); [done|].
    rewrite Herr. apply runStations_files.
  - destruct (String.eqb (strings.TrimSpace s) ""); [done|].
    rewrite Hnone. apply runStations_files.
Qed.

Lemma skipped_station_changes_no_file_witness :
  fst <$> @runStations listCodec
            {| http_get := fun u =>
                 if String.eqb u (stationURL "SMKF1")
                 then Response 500 [] None else Response 200 threeRows None;
               mkdirAll := fun _ => None;
               filepath_Join := fun dir name => dir +:+ "/" +:+ name;
               write_faults := fun _ => noFaults |}
            "/data" (["sanf1"%string] ++ "smkf1"%string :: ["lonf1"%string]) ∅ []
  = fst <$> @runStations listCodec
            {| http_get := fun u =>
                 if String.eqb u (stationURL "SMKF1")
                 then Response 500 [] None else Response 200 threeRows None;
               mkdirAll := fun _ => None;
               filepath_Join := fun dir name => dir +:+ "/" +:+ name;
               write_faults := fun _ => noFaults |}
            "/data" (["sanf1"%string] ++ ["lonf1"%string]) ∅ [].
Proof.
  apply (@skipped_station_changes_no_file listCodec).
  right; left. exists (ErrHTTP 500). reflexivity.
Defined.

(** X16.  A station that is fetched with at least one record and written
    without a fault can be read back: after a cycle of that one station
    the reader finds at the station's path exactly the records fetched,
    provided the codec reads back the rows it wrote. *)
Theorem fetched_station_is_read_back `{Codec} (w : World)
    (dataDir s : string) (rows : list MetRow) (fs : gmap string File) :
  let out := filepath_Join w dataDir
               (strings.ToUpper (strings.TrimSpace s) +:+ "_latest.parquet") in
  mkdirAll w dataDir = None ->
  strings.TrimSpace s <> EmptyString ->
  fetchStation (http_get w) (strings.TrimSpace s) = Ok rows ->
  rows <> [] ->
  (forall st, write_faults w out st = None) ->
  decode (encode rows) = (rows, EOF) ->
  exists fs',
    runOnce w [s] dataDir fs = Some (fs', [LogWrote out (length rows)]) /\
    readParquet fs' out = Some (rows, None).
Proof.
  intros out Hmk Hs Hfetch Hrows Hok Hcodec.
  unfold runOnce. rewrite Hmk. cbn [runStations].
  apply String.eqb_neq in Hs. rewrite Hs, Hfetch.
  destruct rows as [|r rows]; [done|].
  change (length (r :: rows) =? 0)%nat with false. cbv iota. fold out.
  rewrite (writeParquet_succeeds _ out (r :: rows) fs Hok).
  eexists. split; [reflexivity|].
  unfold readParquet. rewrite lookup_insert_eq, Hcodec.
  rewrite readAll_clean; [done | lia].
Qed.

Lemma fetched_station_is_read_back_witness :
  exists fs' rows,
    @runOnce listCodec busyWorld [" sanf1"]%string "/data" ∅
    = Some (fs', [LogWrote "/data/SANF1_latest.parquet" 3]) /\
    @readParquet listCodec fs' "/data/SANF1_latest.parquet" = Some (rows, None)
    /\ length rows = 3%nat.
Proof.
  destruct (fetchStation (http_get busyWorld) "sanf1") as [rows| |] eqn:Hf;
    [|vm_compute in Hf; discriminate..].
  assert (Hlen : length rows = 3%nat)
    by (vm_compute in Hf; injection Hf as <-; reflexivity).
  destruct (@fetched_station_is_read_back listCodec busyWorld "/data" " sanf1"
              rows ∅) as (fs' & Hrun & Hread).
  - reflexivity.
  - discriminate.
  - exact Hf.
  - intros ->. discriminate.
  - reflexivity.
  - reflexivity.
  - exists fs', rows. rewrite Hlen in Hrun. split; [exact Hrun|].
    split; [exact Hread | exact Hlen].
Defined.

(** * The main loop of go-ingest *)

Lemma runOnce_returns `{Codec} (w : World) (stations : list string)
    (dataDir : string) (fs : gmap string File) :
  exists fs' lines, runOnce w stations dataDir fs = Some (fs', lines).
Proof.
  unfold runOnce. destruct (mkdirAll w dataDir) as [e|]; [eauto|].
  destruct (runStations_shape w dataDir stations fs)
    as (fs' & lines & Hrun & _).
  exists fs', lines. by rewrite Hrun.
Qed.

Lemma Atoi_syntax_error_is_zero (s : string) :
  snd (strconv.Atoi s) = Some ErrSyntax -> fst (strconv.Atoi s) = 0.
Proof.
  unfold strconv.Atoi, strconv.ParseInt. destruct s as [|c s]; [done|].
  destruct (strconv.ParseUint10 _) as [un [[]|]]; cbn [fst snd]; try done.
  all: destruct (negb _ && _); [discriminate|];
    destruct (_ && _); discriminate.
Qed.

(** X17.  When the refresh interval is zero, negative or no number at all,
    the process runs exactly one cycle, over the stations and the data
    directory of its environment, and exits with the files that cycle
    left. *)
Theorem main_runs_one_cycle_in_one_shot_mode `{Codec}
    (environ : string -> string) (worlds : nat -> World)
    (fs : gmap string File) (fuel : nat) :
  let stationsCSV :=
    ingestGetenv environ "STATIONS" "SANF1,SMKF1,LONF1,VAKF1,KYWF1" in
  let dataDir := ingestGetenv environ "DATA_DIR" "/data" in
  let minsStr := ingestGetenv environ "REFRESH_MINUTES" "60" in
  fst (strconv.Atoi minsStr) <= 0
  \/ snd (strconv.Atoi minsStr) = Some ErrSyntax ->
  exists fs' lines,
    runOnce (worlds O) (strings_Split stationsCSV ","%char) dataDir fs
    = Some (fs', lines) /\
    ingestMain (S fuel) environ worlds fs
    = Some (fs', [LogStarting stationsCSV (fst (strconv.Atoi minsStr)) dataDir;
                  LogCycle lines; LogOneShot]).
Proof.
  intros stationsCSV dataDir minsStr Hmins.
  assert (Hle : fst (strconv.Atoi minsStr) <= 0).
  { destruct Hmins as [Hle|Hsyn]; [done|].
    by rewrite (Atoi_syntax_error_is_zero _ Hsyn). }
  destruct (runOnce_returns (worlds O) (strings_Split stationsCSV ","%char)
              dataDir fs) as (fs' & lines & Hrun).
  exists fs', lines. split; [done|].
  unfold ingestMain. fold stationsCSV dataDir minsStr.
  cbn [mainLoop]. rewrite Hrun.
  apply Z.leb_le in Hle. by rewrite Hle.
Qed.

Lemma main_runs_one_cycle_in_one_shot_mode_witness :
  @ingestMain listCodec 1
    (fun key => if String.eqb key "REFRESH_MINUTES" then "soon"
                else if String.eqb key "STATIONS" then "sanf1,,smkf1"
                else EmptyString)
    (fun _ => quietWorld) sampleFiles
  = Some (sampleFiles,
          [LogStarting "sanf1,,smkf1" 0 "/data";
           LogCycle [LogNoRows "sanf1"; LogNoRows "smkf1"]; LogOneShot]).
Proof.
  destruct (@main_runs_one_cycle_in_one_shot_mode listCodec
              (fun key => if String.eqb key "REFRESH_MINUTES" then "soon"
                          else if String.eqb key "STATIONS" then "sanf1,,smkf1"
                          else EmptyString)
              (fun _ => quietWorld) sampleFiles 0)
    as (fs' & lines & Hrun & Hmain).
  - right. reflexivity.
  - vm_compute in Hrun. injection Hrun as <- <-. exact Hmain.
Defined.

(** X18.  When the refresh interval is positive the process never leaves
    its loop: after no number of cycles has [main] returned. *)
Theorem main_never_exits_with_positive_interval `{Codec}
    (environ : string -> string) (worlds : nat -> World)
    (fs : gmap string File) (fuel : nat) :
  0 < fst (strconv.Atoi (ingestGetenv environ "REFRESH_MINUTES" "60")) ->
  ingestMain fuel environ worlds fs = None.
Proof.
  intros Hpos. unfold ingestMain.
  generalize (strings_Split
                (ingestGetenv environ "STATIONS" "SANF1,SMKF1,LONF1,VAKF1,KYWF1")
                ","%char) as stations.
  generalize [LogStarting
                (ingestGetenv environ "STATIONS" "SANF1,SMKF1,LONF1,VAKF1,KYWF1")
                (fst (strconv.Atoi (ingestGetenv environ "REFRESH_MINUTES" "60")))
                (ingestGetenv environ "DATA_DIR" "/data")] as log.
  generalize O as cycle. revert fs.
  induction fuel as [|fuel IH]; intros fs cycle log stations; [done|].
  cbn [mainLoop].
  destruct (runOnce (worlds cycle) stations _ fs) as [[fs' lines]|]; [|done].
  apply Z.leb_gt in Hpos. rewrite Hpos. apply IH.
Qed.

Lemma main_never_exits_with_positive_interval_witness :
  @ingestMain listCodec 5 (fun _ => EmptyString) (fun _ => downWorld) ∅ = None.
Proof.
  apply (@main_never_exits_with_positive_interval listCodec).
  reflexivity.
Defined.

(** * More of the reader and of the stream *)




Lemma appendOptF64_snoc (b : list (option strconv.float64))
    (p : option strconv.float64) :
  appendOptF64 b p = b ++ [p].
Proof. by destruct p. Qed.

Lemma appendRows_columns (rows : list MetRow) (rec : arrowRecord) :
  col_station_id (appendRows rows rec) = col_station_id rec ++ (StationID <$> rows)
  /\ col_time (appendRows rows rec) = col_time rec ++ (Time <$> rows)
  /\ col_wdir_deg (appendRows rows rec) = col_wdir_deg rec ++ (WDIRDeg <$> rows)
  /\ col_wspd_ms (appendRows rows rec) = col_wspd_ms rec ++ (WSPDmS <$> rows)
  /\ col_gust_ms (appendRows rows rec) = col_gust_ms rec ++ (GUSTmS <$> rows)
  /\ col_pres_hpa (appendRows rows rec) = col_pres_hpa rec ++ (PREShPa <$> rows)
  /\ col_atmp_c (appendRows rows rec) = col_atmp_c rec ++ (ATMPC <$> rows)
  /\ col_wtmp_c (appendRows rows rec) = col_wtmp_c rec ++ (WTMPC <$> rows)
  /\ col_dewp_c (appendRows rows rec) = col_dewp_c rec ++ (DEWPC <$> rows).
Proof.
  revert rec. induction rows as [|r rows IH]; intros rec.
  - cbn. by rewrite !app_nil_r.
  - cbn [appendRows].
    destruct (IH {| col_station_id := col_station_id rec ++ [StationID r];
                    col_time := col_time rec ++ [Time r];
                    col_wdir_deg :=
                      match WDIRDeg r with
                      | None => col_wdir_deg rec ++ [None]
                      | Some v => col_wdir_deg rec ++ [Some v]
                      end;
                    col_wspd_ms := appendOptF64 (col_wspd_ms rec) (WSPDmS r);
                    col_gust_ms := appendOptF64 (col_gust_ms rec) (GUSTmS r);
                    col_pres_hpa := appendOptF64 (col_pres_hpa rec) (PREShPa r);
                    col_atmp_c := appendOptF64 (col_atmp_c rec) (ATMPC r);
                    col_wtmp_c := appendOptF64 (col_wtmp_c rec) (WTMPC r);
                    col_dewp_c := appendOptF64 (col_dewp_c rec) (DEWPC r);
                    numRows := numRows rec |})
      as (H1 & H2 & H3 & H4 & H5 & H6 & H7 & H8 & H9).
    rewrite H1, H2, H3, H4, H5, H6, H7, H8, H9.
    cbn [col_station_id col_time col_wdir_deg col_wspd_ms col_gust_ms
         col_pres_hpa col_atmp_c col_wtmp_c col_dewp_c fmap list_fmap].
    rewrite !appendOptF64_snoc, <- !app_assoc.
    repeat split; try done. destruct (WDIRDeg r); by rewrite <- app_assoc.
Qed.

(** X20.  A record batch is the row list turned on its side: each of its
    nine columns holds the field of every row, in row order, a null where
    the field is absent and the value where it is present, and the row
    count is the number of rows. *)
Theorem rowsToRecord_columns (rows : list MetRow) :
  rowsToRecord rows =
  {| col_station_id := StationID <$> rows;
     col_time := Time <$> rows;
     col_wdir_deg := WDIRDeg <$> rows;
     col_wspd_ms := WSPDmS <$> rows;
     col_gust_ms := GUSTmS <$> rows;
     col_pres_hpa := PREShPa <$> rows;
     col_atmp_c := ATMPC <$> rows;
     col_wtmp_c := WTMPC <$> rows;
     col_dewp_c := DEWPC <$> rows;
     numRows := length rows |}.
Proof.
  unfold rowsToRecord.
  destruct (appendRows_columns rows
              {| col_station_id := []; col_time := []; col_wdir_deg := [];
                 col_wspd_ms := []; col_gust_ms := []; col_pres_hpa := [];
                 col_atmp_c := []; col_wtmp_c := []; col_dewp_c := [];
                 numRows := O |})
    as (H1 & H2 & H3 & H4 & H5 & H6 & H7 & H8 & H9).
  by rewrite H1, H2, H3, H4, H5, H6, H7, H8, H9.
Qed.

Lemma rows_of_columns (rows1 rows2 : list MetRow) :
  StationID <$> rows1 = StationID <$> rows2 ->
  Time <$> rows1 = Time <$> rows2 ->
  WDIRDeg <$> rows1 = WDIRDeg <$> rows2 ->
  WSPDmS <$> rows1 = WSPDmS <$> rows2 ->
  GUSTmS <$> rows1 = GUSTmS <$> rows2 ->
  PREShPa <$> rows1 = PREShPa <$> rows2 ->
  ATMPC <$> rows1 = ATMPC <$> rows2 ->
  WTMPC <$> rows1 = WTMPC <$> rows2 ->
  DEWPC <$> rows1 = DEWPC <$> rows2 ->
  rows1 = rows2.
Proof.
  revert rows2. induction rows1 as [|a rows1 IH]; intros [|b rows2];
    try done.
  cbn [fmap list_fmap].
  intros [= H1 T1] [= H2 T2] [= H3 T3] [= H4 T4] [= H5 T5] [= H6 T6]
         [= H7 T7] [= H8 T8] [= H9 T9].
  f_equal; [|by apply IH].
  destruct a, b. cbn in *. congruence.
Qed.

(** X21.  Two row lists that give the same record batch are the same row
    list: the batch loses nothing of the rows, and so keeps apart an
    absent field and a present one. *)
Theorem rowsToRecord_injective (rows1 rows2 : list MetRow) :
  rowsToRecord rows1 = rowsToRecord rows2 -> rows1 = rows2.
Proof.
  assert (Hcols : forall rows,
             rowsToRecord rows =
             {| col_station_id := StationID <$> rows;
                col_time := Time <$> rows;
                col_wdir_deg := WDIRDeg <$> rows;
                col_wspd_ms := WSPDmS <$> rows;
                col_gust_ms := GUSTmS <$> rows;
                col_pres_hpa := PREShPa <$> rows;
                col_atmp_c := ATMPC <$> rows;
                col_wtmp_c := WTMPC <$> rows;
                col_dewp_c := DEWPC <$> rows;
                numRows := length rows |}).
  { intros rows. unfold rowsToRecord.
    destruct (appendRows_columns rows
                {| col_station_id := []; col_time := []; col_wdir_deg := [];
                   col_wspd_ms := []; col_gust_ms := []; col_pres_hpa := [];
                   col_atmp_c := []; col_wtmp_c := []; col_dewp_c := [];
                   numRows := O |})
      as (H1 & H2 & H3 & H4 & H5 & H6 & H7 & H8 & H9).
    by rewrite H1, H2, H3, H4, H5, H6, H7, H8, H9. }
  rewrite !Hcols. intros [= H1 H2 H3 H4 H5 H6 H7 H8 H9 _].
  by apply rows_of_columns.
Qed.

Lemma rowsToRecord_injective_witness :
  rowsToRecord
    [sampleRow;
     {| StationID := "SANF1"; Time := 1710504000; WDIRDeg := None;
        WSPDmS := Some (fst (strconv.ParseFloat "5.1")); GUSTmS := None;
        PREShPa := None; ATMPC := None; WTMPC := None; DEWPC := None |}]
  <> rowsToRecord [sampleRow; sampleRow].
Proof.
  intros Heq. apply rowsToRecord_injective in Heq. discriminate.
Defined.




(** X23.  What the ingest wrote, the stream serves: after a cycle of one
    station that is fetched with at least one record and written without a
    fault, a stream request that discovers the station's file and writes
    its batch answers with exactly one batch, the fetched records turned
    into columns. *)
Theorem ingested_station_is_streamed `{Codec} (w : World) (sw : SourceWorld)
    (dataDir s : string) (rows : list MetRow) (fs : gmap string File) :
  let out := filepath_Join w dataDir
               (strings.ToUpper (strings.TrimSpace s) +:+ "_latest.parquet") in
  mkdirAll w dataDir = None ->
  strings.TrimSpace s <> EmptyString ->
  fetchStation (http_get w) (strings.TrimSpace s) = Ok rows ->
  rows <> [] ->
  (forall st, write_faults w out st = None) ->
  decode (encode rows) = (rows, EOF) ->
  exists fs',
    runOnce w [s] dataDir fs = Some (fs', [LogWrote out (length rows)]) /\
    (ipc_NewWriter sw = None -> ipc_Write sw out = None ->
     filepath_Glob sw
       (src_Join sw (getenv sw "DATA_DIR" "/data") "*_latest.parquet") fs'
     = [out] ->
     streamHandler sw fs'
     = Some ({| statusCode := 200;
                contentType := "application/vnd.apache.arrow.stream";
                body := ArrowStream buildSchema [rowsToRecord rows] |},
             [LogSent out (length rows)])).
Proof.
  intros out Hmk Hs Hfetch Hrows Hok Hcodec.
  unfold runOnce. rewrite Hmk. cbn [runStations].
  apply String.eqb_neq in Hs. rewrite Hs, Hfetch.
  destruct rows as [|r rows]; [done|].
  change (length (r :: rows) =? 0)%nat with false. cbv iota. fold out.
  rewrite (writeParquet_succeeds _ out (r :: rows) fs Hok).
  eexists. split; [reflexivity|].
  intros Hnew Hwrite Hglob. unfold streamHandler. rewrite Hnew, Hglob.
  cbn [length Nat.eqb streamFiles]. unfold streamFile, readParquet.
  rewrite lookup_insert_eq, Hcodec.
  rewrite readAll_clean; [|lia]. cbn [app].
  change (length (r :: rows) =? 0)%nat with false. cbv iota.
  by rewrite Hwrite.
Qed.

Lemma ingested_station_is_streamed_witness :
  exists fs' rows,
    @runOnce listCodec busyWorld ["sanf1"]%string "/data" ∅
    = Some (fs', [LogWrote "/data/SANF1_latest.parquet" (length rows)]) /\
    @streamHandler listCodec sourceWorld fs'
    = Some ({| statusCode := 200;
               contentType := "application/vnd.apache.arrow.stream";
               body := ArrowStream buildSchema [rowsToRecord rows] |},
            [LogSent "/data/SANF1_latest.parquet" (length rows)]).
Proof.
  destruct (fetchStation (http_get busyWorld) "sanf1") as [rows| |] eqn:Hf;
    [|vm_compute in Hf; discriminate..].
  destruct (@ingested_station_is_streamed listCodec busyWorld sourceWorld
              "/data" "sanf1" rows ∅) as (fs' & Hrun & Hstream).
  - reflexivity.
  - discriminate.
  - exact Hf.
  - intros ->. vm_compute in Hf. discriminate.
  - reflexivity.
  - reflexivity.
  - exists fs', rows. split; [exact Hrun|].
    apply Hstream; [reflexivity | reflexivity |].
    vm_compute in Hrun. injection Hrun as <- _. vm_compute. reflexivity.
Defined.

(** * More of the parser: the header line *)

Lemma YYYY_begins_with_YY (t : string) :
  strings.HasPrefix t "YY" || strings.HasPrefix t "YYYY"
  = strings.HasPrefix t "YY".
Proof.
  unfold strings.HasPrefix.
  destruct t as [|a [|b t]]; cbn [String.prefix]; [done | |].
  - by destruct (ascii_dec "Y" a).
  - destruct (ascii_dec "Y" a); [|done].
    destruct (ascii_dec "Y" b); [|done].
    by destruct t.
Qed.

Lemma headerLine_eq (line : string) :
  headerLine line =
  let trim := strings.TrimSpace (strings.TrimPrefix line "#") in
  if strings.HasPrefix line "#" && strings.HasPrefix trim "YY"
  then Some (strings.Fields trim) else None.
Proof.
  unfold headerLine, scanLine. cbv zeta.
  destruct (strings.HasPrefix line "#"); cbn [andb].
  - rewrite YYYY_begins_with_YY. by destruct (strings.HasPrefix _ "YY").
  - destruct (String.eqb _ _); [done|].
    by destruct (5 <=? length (strings.Fields line))%nat.
Qed.

(** X24.  The header the loop ends with is that of the last comment line
    whose content, the marker and the white space around it taken off,
    begins with YY: its content split into fields.  The test for YYYY adds
    nothing to the test for YY.  Without such a line the fixed header of 19
    names is used. *)
Theorem header_is_last_YY_comment (station : string) (body : list byte)
    (cap : Z) :
  exists lines,
    documentLines body = Ok lines /\
    let content (l : string) :=
      strings.TrimSpace (strings.TrimPrefix l "#") in
    let headers :=
      strings.Fields ∘ content <$>
        List.filter
          (fun l => strings.HasPrefix l "#"
                    && strings.HasPrefix (content l) "YY") lines in
    scan body = Ok (last headers, candidateRows lines) /\
    parseNdbcStdMet station body cap =
    Ok (rowOf station (indexHeader 0 (default fallbackHeader (last headers)) ∅)
        <$> capRows cap (candidateRows lines)) /\
    length fallbackHeader = 19%nat.
Proof.
  destruct (documentLines_returns body) as [lines Hl].
  exists lines. split; [done|]. intros content headers.
  assert (Hh : documentHeader lines = last headers).
  { unfold documentHeader, headers. f_equal. clear Hl headers.
    induction lines as [|l lines IH]; [done|].
    cbn [List.filter].
    change (omap headerLine (l :: lines))
      with (match headerLine l with
            | Some h => h :: omap headerLine lines
            | None => omap headerLine lines
            end).
    rewrite headerLine_eq, IH. cbv zeta. fold (content l).
    by destruct (strings.HasPrefix l "#" && strings.HasPrefix (content l) "YY"). }
  split; [|split; [|done]].
  - by rewrite (scan_lines _ _ Hl), Hh.
  - by rewrite (parse_lines _ _ _ _ Hl), Hh.
Qed.
